(** * yente: the request interception layer of [yente/app.py]

    A shallow embedding of [get_user_id], [request_middleware],
    [api_error_handler], [transport_error_handler] and [create_app], and the
    properties of the request pipeline proved about them.

    Conventions of the embedding:
    - a Python [str] holding a decoded header is a [string]: the framework
      decodes header bytes as latin-1, one character per byte;
    - a Python [int] is a [Z] or an [N]; a Python [float] is a binary64
      [float], with the rounding operations of IEEE 754;
    - effects (clock, entropy, structlog context variables, log output) are
      fields of a [World] threaded by a state-and-exception monad [M];
    - a raised exception is a value of [PyExc]; [try ... except Exception]
      is the combinator [try_except_Exception]. *)

From Stdlib Require Import ZArith NArith Floats Bool Ascii String List Lia.
From Stdlib Require Import DecimalString Decimal.
From Stdlib.Strings Require Byte.
From stdpp Require Import base option gmap strings list fin_maps.
Import ListNotations.

Local Open Scope string_scope.

(** ** Python strings *)

Module PyStr.

(** [c in s] for a one-character [c]. *)
Fixpoint contains (c : ascii) (s : string) : bool :=
  match s with
  | EmptyString => false
  | String a rest => if Ascii.eqb a c then true else contains c rest
  end.

(** [s.split(c, 1)]: at most one split, at the first occurrence of [c].
    The result has one element when [c] does not occur and two otherwise. *)
Fixpoint split1 (c : ascii) (s : string) : list string :=
  match s with
  | EmptyString => [EmptyString]
  | String a rest =>
      if Ascii.eqb a c then [EmptyString; rest]
      else match split1 c rest with
           | h :: t => String a h :: t
           | [] => []
           end
  end.

(** [s[:n]] *)
Fixpoint take (n : nat) (s : string) : string :=
  match n, s with
  | O, _ => EmptyString
  | S _, EmptyString => EmptyString
  | S n', String a rest => String a (take n' rest)
  end.

(** [str(i)] for an integer. *)
Definition of_int (i : Z) : string := NilZero.string_of_int (Z.to_int i).

End PyStr.

(** ** Exceptions *)

(** The exceptions that can travel through the pipeline.  [ApiError] and
    [TransportError] are the two classes imported from the search client;
    [HTTPException] is the framework's own; [OtherException] is any other
    subclass of [Exception], named by its class; [BaseOnly] is a
    [BaseException] outside [Exception] (task cancellation, interpreter
    exit), which an [except Exception] clause does not catch. *)
Inductive PyExc : Type :=
| ApiError (status_code : Z) (message : string)
| TransportError (message : string)
| HTTPException (status_code : Z) (detail : string)
| OtherException (cls : string)
| BaseOnly (cls : string).

(** [isinstance(exc, Exception)] *)
Definition isinstance_Exception (exc : PyExc) : bool :=
  match exc with
  | BaseOnly _ => false
  | _ => true
  end.

(** The class name shown by [type(exc)]. *)
Definition class_name (exc : PyExc) : string :=
  match exc with
  | ApiError _ _ => "elasticsearch.ApiError"
  | TransportError _ => "elastic_transport.TransportError"
  | HTTPException _ _ => "starlette.exceptions.HTTPException"
  | OtherException cls => cls
  | BaseOnly cls => cls
  end.

(** ["%s" % type(exc)] *)
Definition type_repr (exc : PyExc) : string :=
  "<class '" +:+ class_name exc +:+ "'>".

Inductive Result (A : Type) : Type :=
| Ok (a : A)
| Raise (exc : PyExc).
Arguments Ok {A} a.
Arguments Raise {A} exc.

(** Sequencing of pure code that may raise. *)
Definition rbind {A B : Type} (r : Result A) (k : A -> Result B) : Result B :=
  match r with
  | Ok a => k a
  | Raise exc => Raise exc
  end.

(** [a, b = l]: unpacking into two names raises [ValueError] unless the
    list has exactly two elements. *)
Definition unpack2 (l : list string) : Result (string * string) :=
  match l with
  | [a; b] => Ok (a, b)
  | _ => Raise (OtherException "ValueError")
  end.

(** ** Headers *)

(** [starlette.datastructures.Headers]: the raw list of (name, value)
    pairs, names in lower case; order and duplicates are kept. *)
Definition Headers := list (string * string).

Module Hdr.

(** [headers.get(key)]: the value of the first pair named [key]. *)
Fixpoint get (key : string) (h : Headers) : option string :=
  match h with
  | [] => None
  | (k, v) :: rest => if String.eqb k key then Some v else get key rest
  end.

Fixpoint remove (key : string) (h : Headers) : Headers :=
  match h with
  | [] => []
  | (k, v) :: rest =>
      if String.eqb k key then remove key rest else (k, v) :: remove key rest
  end.

(** [headers[key] = value] on [MutableHeaders]: the first pair named [key]
    takes the new value, later pairs of that name are dropped, and the pair
    is appended when the name is new. *)
Fixpoint set (key value : string) (h : Headers) : Headers :=
  match h with
  | [] => [(key, value)]
  | (k, v) :: rest =>
      if String.eqb k key then (key, value) :: remove key rest
      else (k, v) :: set key value rest
  end.

End Hdr.

(** ** Requests and responses *)

(** [request.client]: the peer address of the connection. *)
Record Address : Type := mkAddress { host : string; port : Z }.

Record Request : Type := mkRequest {
  method : string;
  url_path : string;
  url_query : string;
  req_headers : Headers;
  client : option Address
}.

(** The content handed to [JSONResponse]. *)
#[local] Unset Elimination Schemes.
Inductive Json : Type :=
| JNull
| JNum (z : Z)
| JStr (s : string)
| JArr (items : list Json)
| JObj (members : list (string * Json)).
#[local] Set Elimination Schemes.

(** A response: status, the headers set by application code, and the
    content.  The [content-length] and [content-type] headers the framework
    derives from the rendered body are not part of the model. *)
Record Response : Type := mkResponse {
  status_code : Z;
  headers : Headers;
  body : Json
}.

(** [JSONResponse(status_code=..., content=...)] *)
Definition JSONResponse (status : Z) (content : Json) : Response :=
  {| status_code := status; headers := []; body := content |}.

(** [response.headers[key] = value] *)
Definition set_header (key value : string) (r : Response) : Response :=
  {| status_code := status_code r;
     headers := Hdr.set key value (headers r);
     body := body r |}.

(** ** Trace identifiers: [uuid4().hex] *)

Module UUID.

(** [int.from_bytes(bs, "big")] *)
Definition int_from_bytes (bs : list Byte.byte) : N :=
  fold_left (fun acc b => (acc * 256 + Byte.to_N b)%N) bs 0%N.

(** [UUID(bytes=bs, version=4).int]: the variant bits are set to RFC 4122
    and the version nibble to 4; the other 122 bits are kept. *)
Definition v4 (bs : list Byte.byte) : N :=
  let int := int_from_bytes bs in
  let int := N.ldiff int (N.shiftl 0xc000 48) in
  let int := N.lor int (N.shiftl 0x8000 48) in
  let int := N.ldiff int (N.shiftl 0xf000 64) in
  N.lor int (N.shiftl 4 76).

(** The digit of ["%x"] for a value below 16. *)
Definition hex_char (d : N) : ascii :=
  if (d <? 10)%N then ascii_of_N (48 + d) else ascii_of_N (87 + d).

(** The [k] low nibbles of [n], least significant first. *)
Fixpoint nibbles (k : nat) (n : N) : list N :=
  match k with
  | O => []
  | S k' => (n mod 16)%N :: nibbles k' (n / 16)%N
  end.

(** ["%032x" % n] for [n < 2^128], which every UUID is. *)
Definition hex (n : N) : string :=
  string_of_list_ascii (map hex_char (rev (nibbles 32 n))).

(** Reading the digits back. *)
Definition unhex_char (c : ascii) : N :=
  let v := N_of_ascii c in
  if (v <? 58)%N then (v - 48)%N else (v - 87)%N.

Fixpoint of_nibbles (l : list N) : N :=
  match l with
  | [] => 0%N
  | d :: rest => (d + 16 * of_nibbles rest)%N
  end.

Definition unhex (s : string) : N :=
  of_nibbles (rev (map unhex_char (list_ascii_of_string s))).

(** A character of [0-9a-f]. *)
Definition is_lower_hex (c : ascii) : bool :=
  let v := N_of_ascii c in
  ((48 <=? v)%N && (v <=? 57)%N) || ((97 <=? v)%N && (v <=? 102)%N).

(** A string of exactly 32 characters of [0-9a-f]. *)
Definition is_hex32 (s : string) : bool :=
  (String.length s =? 32)%nat && forallb is_lower_hex (list_ascii_of_string s).

End UUID.

(** ** Log output *)

Inductive Level : Type := INFO | ERROR | EXCEPTION.

(** A keyword argument of a log call. *)
Inductive LogValue : Type :=
| LStr (s : string)
| LOpt (o : option string)
| LInt (z : Z)
| LFloat (x : float).

(** One emitted record: the level of the call ([log.exception] is
    [EXCEPTION]), the event text, the keyword arguments in call order and
    the context variables bound at the moment of the call. *)
Record LogEntry : Type := mkLogEntry {
  level : Level;
  event : string;
  fields : list (string * LogValue);
  context : gmap string (option string)
}.

Fixpoint field (key : string) (kw : list (string * LogValue)) : option LogValue :=
  match kw with
  | [] => None
  | (k, v) :: rest => if String.eqb k key then Some v else field key rest
  end.

(** The record carries [action="request"]. *)
Definition is_request_record (e : LogEntry) : bool :=
  match field "action" (fields e) with
  | Some (LStr a) => String.eqb a "request"
  | _ => false
  end.

(** ** The world a request runs in *)

(** [clock n] is what the [n]-th call of [time.time()] returns: the wall
    clock, which the system may set back between two calls.  [entropy n] is
    the [n]-th byte delivered by [os.urandom].  [contextvars] is the
    structlog context of the running task, [logged] the records emitted so
    far, oldest first. *)
Record World : Type := mkWorld {
  clock : nat -> float;
  clock_reads : nat;
  entropy : nat -> Byte.byte;
  entropy_used : nat;
  contextvars : gmap string (option string);
  logged : list LogEntry
}.

(** Computations: they read and write the world and return or raise. *)
Definition M (A : Type) : Type := World -> Result A * World.

Definition ret {A : Type} (a : A) : M A := fun w => (Ok a, w).

Definition bind {A B : Type} (m : M A) (k : A -> M B) : M B :=
  fun w =>
    match m w with
    | (Ok a, w') => k a w'
    | (Raise exc, w') => (Raise exc, w')
    end.

(** A pure result inside a computation. *)
Definition lift {A : Type} (r : Result A) : M A := fun w => (r, w).

(** [try: body  except Exception as exc: handler(exc)] *)
Definition try_except_Exception {A : Type} (body : M A) (handler : PyExc -> M A)
  : M A :=
  fun w =>
    match body w with
    | (Ok a, w') => (Ok a, w')
    | (Raise exc, w') =>
        if isinstance_Exception exc then handler exc w' else (Raise exc, w')
    end.

Declare Scope py_scope.
Delimit Scope py_scope with py.
Notation "x <- m ;; k" := (bind m (fun x => k))
  (at level 100, m at next level, k at level 200, right associativity)
  : py_scope.
Notation "m ;; k" := (bind m (fun _ => k))
  (at level 100, k at level 200, right associativity) : py_scope.
Notation "x <~ r ;; k" := (rbind r (fun x => k))
  (at level 100, r at next level, k at level 200, right associativity)
  : py_scope.

(** [time.time()] *)
Definition time_time : M float :=
  fun w =>
    (Ok (clock w (clock_reads w)),
     {| clock := clock w; clock_reads := S (clock_reads w);
        entropy := entropy w; entropy_used := entropy_used w;
        contextvars := contextvars w; logged := logged w |}).

(** [os.urandom(n)] *)
Definition os_urandom (n : nat) : M (list Byte.byte) :=
  fun w =>
    (Ok (map (entropy w) (seq (entropy_used w) n)),
     {| clock := clock w; clock_reads := clock_reads w;
        entropy := entropy w; entropy_used := (entropy_used w + n)%nat;
        contextvars := contextvars w; logged := logged w |}).

(** [uuid4().hex] *)
Definition uuid4_hex : M string :=
  bind (os_urandom 16) (fun bs => ret (UUID.hex (UUID.v4 bs))).

(** [bind_contextvars(k=v, ...)]: each name is bound in the running context,
    over whatever it was bound to. *)
Definition bind_contextvars (kw : list (string * option string)) : M unit :=
  fun w =>
    (Ok tt,
     {| clock := clock w; clock_reads := clock_reads w;
        entropy := entropy w; entropy_used := entropy_used w;
        contextvars := fold_left (fun m kv => <[kv.1 := kv.2]> m) kw (contextvars w);
        logged := logged w |}).

(** [clear_contextvars()] *)
Definition clear_contextvars : M unit :=
  fun w =>
    (Ok tt,
     {| clock := clock w; clock_reads := clock_reads w;
        entropy := entropy w; entropy_used := entropy_used w;
        contextvars := ∅; logged := logged w |}).

(** A call on the logger [log]. *)
Definition emit (lvl : Level) (ev : string) (kw : list (string * LogValue))
  : M unit :=
  fun w =>
    (Ok tt,
     {| clock := clock w; clock_reads := clock_reads w;
        entropy := entropy w; entropy_used := entropy_used w;
        contextvars := contextvars w;
        logged := logged w ++
          [{| level := lvl; event := ev; fields := kw;
              context := contextvars w |}] |}).

Definition log_info := emit INFO.
Definition log_error (ev : string) := emit ERROR ev [].
Definition log_exception (ev : string) := emit EXCEPTION ev [].

(** ** Slugs *)

Module Slug.

Definition lower (c : ascii) : ascii :=
  let v := N_of_ascii c in
  if ((65 <=? v)%N && (v <=? 90)%N) then ascii_of_N (v + 32) else c.

Definition is_alnum (c : ascii) : bool :=
  let v := N_of_ascii c in
  ((48 <=? v)%N && (v <=? 57)%N) || ((97 <=? v)%N && (v <=? 122)%N).

(** [started]: a character has been kept already; [pending]: characters
    were dropped since the last kept one. *)
Fixpoint scan (started pending : bool) (s : string) : string :=
  match s with
  | EmptyString => EmptyString
  | String c rest =>
      let c' := lower c in
      if is_alnum c' then
        if started && pending
        then String "-" (String c' (scan true false rest))
        else String c' (scan true false rest)
      else scan started true rest
  end.

(** Modelled from the spec: [slugify] belongs to the external package
    [normality] and is not part of [yente/app.py].  For ASCII text the spec
    describes its result as lower case, runs of non-alphanumeric characters
    collapsed to one separator, none at either end; a text that keeps no
    character has no slug.  The pipeline below takes [slugify] as a
    parameter; this instance serves to run it on concrete requests. *)
Definition slugify_ascii (text : string) : option string :=
  match scan false false text with
  | EmptyString => None
  | slug => Some slug
  end.

End Slug.

(** ** The pipeline of [yente/app.py] *)

Section Pipeline.

Local Open Scope py_scope.

(** [normality.slugify]: a slug, or [None]. *)
Variable slugify : string -> option string.

(** [get_user_id(headers)] *)
Definition get_user_id (headers : Headers) : Result (option string) :=
  let user_id := Hdr.get "authorization" headers in
  user_id <~ match user_id with
             | Some value =>
                 value <~ (if PyStr.contains " " value
                           then parts <~ unpack2 (PyStr.split1 " " value) ;;
                                Ok (snd parts)
                           else Ok value) ;;
                 Ok (slugify value)
             | None => Ok None
             end ;;
  let user_id := match user_id with
                 | Some value => Some (PyStr.take 40 value)
                 | None => None
                 end in
  Ok user_id.

(** The keyword arguments of the [log.info] call of [request_middleware]. *)
Definition request_fields (request : Request) (response : Response)
    (time_delta : float) : list (string * LogValue) :=
  [ ("action", LStr "request");
    ("method", LStr (method request));
    ("path", LStr (url_path request));
    ("query", LStr (url_query request));
    ("agent", LOpt (Hdr.get "user-agent" (req_headers request)));
    ("referer", LOpt (Hdr.get "referer" (req_headers request)));
    ("code", LInt (status_code response));
    ("took", LFloat time_delta) ].

(** [request_middleware(request, call_next)] *)
Definition request_middleware (request : Request)
    (call_next : Request -> M Response) : M Response :=
  start_time <- time_time ;;
  user_id <- lift (get_user_id (req_headers request)) ;;
  trace_id <- uuid4_hex ;;
  let client_ip := match client request with
                   | Some peer => host peer
                   | None => "127.0.0.1"
                   end in
  bind_contextvars [ ("user_id", user_id);
                     ("trace_id", Some trace_id);
                     ("client_ip", Some client_ip) ] ;;
  response <- try_except_Exception (call_next request)
                (fun exc =>
                   log_exception ("Exception during request: " +:+ type_repr exc) ;;
                   ret (JSONResponse 500 (JObj [("status", JStr "error")]))) ;;
  now <- time_time ;;
  let time_delta := (now - start_time)%float in
  let response := set_header "x-trace-id" trace_id response in
  let response := match user_id with
                  | Some value => set_header "x-user-id" value response
                  | None => response
                  end in
  log_info (url_path request) (request_fields request response time_delta) ;;
  clear_contextvars ;;
  ret response.

(** [api_error_handler(request, exc)] for [exc = ApiError(status, message)] *)
Definition api_error_handler (request : Request) (exc_status_code : Z)
    (exc_message : string) : M Response :=
  log_error ("Search error " +:+ PyStr.of_int exc_status_code +:+ ": "
             +:+ exc_message) ;;
  ret (JSONResponse exc_status_code (JObj [("detail", JStr exc_message)])).

(** [transport_error_handler(request, exc)] for [exc = TransportError(message)] *)
Definition transport_error_handler (request : Request) (exc_message : string)
  : M Response :=
  log_error ("Transport: " +:+ exc_message) ;;
  ret (JSONResponse 500 (JObj [("detail", JStr exc_message)])).

(** Modelled from the spec: the framework's dispatch of the handlers that
    [create_app] registers with [add_exception_handler] is not part of
    [yente/app.py].  By the spec a recognised fault that ends the routers'
    handling is translated by its handler before the middleware's own
    [except] clause sees it, and a fault the framework converts itself
    ([HTTPException]) becomes its standard error response; anything else
    goes on to the middleware. *)
Definition exception_handlers (routers : Request -> M Response)
    (request : Request) : M Response :=
  fun w =>
    match routers request w with
    | (Raise (ApiError status message), w') =>
        api_error_handler request status message w'
    | (Raise (TransportError message), w') =>
        transport_error_handler request message w'
    | (Raise (HTTPException status detail), w') =>
        (Ok (JSONResponse status (JObj [("detail", JStr detail)])), w')
    | outcome => outcome
    end.

(** [create_app()]: the middleware around the routers and the two
    registered handlers.  [routers] stands for the four included routers.
    The CORS middleware, which only adds response headers of its own, is
    left out. *)
Definition create_app (routers : Request -> M Response)
  : Request -> M Response :=
  fun request => request_middleware request (exception_handlers routers).

End Pipeline.

(** ** Notions used in the statements *)

Module Spec.

(** What follows the first space of [s], when there is a space. *)
Fixpoint after_first_space (s : string) : option string :=
  match s with
  | EmptyString => None
  | String a rest =>
      if Ascii.eqb a " " then Some rest else after_first_space rest
  end.

(** The header value without everything up to and including its first
    space, if it has one. *)
Definition remainder (value : string) : string :=
  match after_first_space value with
  | Some rest => rest
  | None => value
  end.

(** The advisory user id in the words of the specification: none without an
    [authorization] header; otherwise the remainder of the header value,
    slugified, and cut to its first 40 characters. *)
Definition user_id (slugify : string -> option string) (headers : Headers)
  : option string :=
  match Hdr.get "authorization" headers with
  | None => None
  | Some value =>
      match slugify (remainder value) with
      | Some slug => Some (PyStr.take 40 slug)
      | None => None
      end
  end.

End Spec.

(** The 16 bytes [os.urandom] delivers to the request that starts in [w]. *)
Definition drawn (w : World) : list Byte.byte :=
  map (entropy w) (seq (entropy_used w) 16).

(** The trace id of the request that starts in [w]. *)
Definition trace_id_of (w : World) : string := UUID.hex (UUID.v4 (drawn w)).

Definition client_ip_of (request : Request) : string :=
  match client request with
  | Some peer => host peer
  | None => "127.0.0.1"
  end.

(** The world in which [request_middleware], started in [w], awaits
    [call_next]: one clock reading and 16 bytes of entropy are consumed and
    the three context variables are bound. *)
Definition at_call_next (user_id : option string) (request : Request)
    (w : World) : World :=
  {| clock := clock w; clock_reads := S (clock_reads w);
     entropy := entropy w; entropy_used := (entropy_used w + 16)%nat;
     contextvars :=
       <["client_ip" := Some (client_ip_of request)]>
         (<["trace_id" := Some (trace_id_of w)]>
            (<["user_id" := user_id]> (contextvars w)));
     logged := logged w |}.

(** The response of the [except] clause. *)
Definition fallback : Response :=
  JSONResponse 500 (JObj [("status", JStr "error")]).

(** The record of the [log.exception] call, emitted in [w]. *)
Definition exception_record (exc : PyExc) (w : World) : LogEntry :=
  {| level := EXCEPTION;
     event := "Exception during request: " +:+ type_repr exc;
     fields := [];
     context := contextvars w |}.

Definition with_record (e : LogEntry) (w : World) : World :=
  {| clock := clock w; clock_reads := clock_reads w;
     entropy := entropy w; entropy_used := entropy_used w;
     contextvars := contextvars w; logged := logged w ++ [e] |}.

(** The response with the diagnostic headers of the request started in [w]. *)
Definition decorated (user_id : option string) (w : World) (response : Response)
  : Response :=
  let response := set_header "x-trace-id" (trace_id_of w) response in
  match user_id with
  | Some value => set_header "x-user-id" value response
  | None => response
  end.

(** The elapsed time of a request started in [w] whose downstream handling
    ended in [w2]: the clock reading taken then minus the one taken first,
    rounded as the subtraction of two floats is. *)
Definition elapsed (w w2 : World) : float :=
  (clock w2 (clock_reads w2) - clock w (clock_reads w))%float.

(** The record of the [log.info] call. *)
Definition request_record (request : Request) (final : Response) (w w2 : World)
  : LogEntry :=
  {| level := INFO;
     event := url_path request;
     fields := request_fields request final (elapsed w w2);
     context := contextvars w2 |}.

(** The world [request_middleware] leaves behind, from the world [w2] in
    which the response was chosen. *)
Definition finished (request : Request) (final : Response) (w w2 : World)
  : World :=
  {| clock := clock w2; clock_reads := S (clock_reads w2);
     entropy := entropy w2; entropy_used := entropy_used w2;
     contextvars := ∅;
     logged := logged w2 ++ [request_record request final w w2] |}.

(** The response the middleware finalises, when downstream handling
    returned or raised an [Exception]. *)
Definition chosen (out : Result Response) : Response :=
  match out with
  | Ok r => r
  | Raise _ => fallback
  end.

(** The world in which the response is chosen: after the [log.exception]
    call when the [except] clause ran. *)
Definition chosen_in (out : Result Response) (w2 : World) : World :=
  match out with
  | Ok _ => w2
  | Raise exc => with_record (exception_record exc w2) w2
  end.

(** The value logged as [took] by the last record of [w], if it has one. *)
Definition logged_took (w : World) : option float :=
  match last (logged w) with
  | Some e => match field "took" (fields e) with
              | Some (LFloat q) => Some q
              | _ => None
              end
  | None => None
  end.

(** Status and content of an outcome; [None] when it is an exception. *)
Definition status_and_body (r : Result Response) : option (Z * Json) :=
  match r with
  | Ok response => Some (status_code response, body response)
  | Raise _ => None
  end.

(** The trace id header of an outcome. *)
Definition trace_header (r : Result Response) : option string :=
  match r with
  | Ok response => Hdr.get "x-trace-id" (headers response)
  | Raise _ => None
  end.

(** Downstream handling ends by returning, or by raising an instance of
    [Exception]. *)
Definition returns_or_raises_Exception (r : Result Response) : Prop :=
  match r with
  | Ok _ => True
  | Raise exc => isinstance_Exception exc = true
  end.

(** ** Concrete requests, handlers and worlds *)

Module Sample.

(** A clock that advances by one second per reading. *)
Fixpoint clock_steady (n : nat) : float :=
  match n with
  | O => 0%float
  | S k => (clock_steady k + 1)%float
  end.

(** A clock set back between its first and its second reading. *)
Definition clock_set_back (n : nat) : float :=
  match n with
  | O => 10%float
  | S _ => 5%float
  end.

(** An entropy source that delivers the bytes 0, 1, 2, ... *)
Definition entropy_counting (n : nat) : Byte.byte :=
  match Byte.of_N (N.of_nat n mod 256) with
  | Some b => b
  | None => Byte.x00
  end.

(** An entropy source that only ever delivers the byte 0. *)
Definition entropy_stuck (n : nat) : Byte.byte := Byte.x00.

Definition world (clk : nat -> float) (ent : nat -> Byte.byte) : World :=
  {| clock := clk; clock_reads := 0;
     entropy := ent; entropy_used := 0;
     contextvars := ∅; logged := [] |}.

Definition w_steady : World := world clock_steady entropy_counting.
Definition w_set_back : World := world clock_set_back entropy_counting.
Definition w_stuck : World := world clock_steady entropy_stuck.

Definition search (hdrs : Headers) : Request :=
  {| method := "GET"; url_path := "/search/default"; url_query := "q=acme";
     req_headers := hdrs;
     client := Some {| host := "10.0.0.7"; port := 40312 |} |}.

Definition req_bearer : Request :=
  search [("authorization", "Bearer John Doe!!"); ("user-agent", "curl/8.5")].

Definition req_symbols : Request :=
  search [("authorization", "Bearer !!!")].

Definition req_anonymous : Request := search [("user-agent", "curl/8.5")].

(** A handler that answers 200 with an empty result list. *)
Definition respond_ok : Request -> M Response :=
  fun _ => ret (JSONResponse 200 (JObj [("results", JArr [])])).

(** A handler that raises [exc]. *)
Definition fail_with (exc : PyExc) : Request -> M Response :=
  fun _ w => (Raise exc, w).

(** A handler that answers with the context variables it can read. *)
Definition show (v : option (option string)) : Json :=
  match v with
  | Some (Some s) => JStr s
  | _ => JNull
  end.

Definition echo_context : Request -> M Response :=
  fun _ w =>
    (Ok (JSONResponse 200
           (JObj [ ("user_id", show (contextvars w !! "user_id"));
                   ("trace_id", show (contextvars w !! "trace_id"));
                   ("client_ip", show (contextvars w !! "client_ip")) ])),
     w).

(** Two executions in a row on the same request, the second in the world
    the first leaves behind, with an entropy source that repeats itself. *)
Definition first_run : Result Response * World :=
  request_middleware Slug.slugify_ascii req_bearer respond_ok w_stuck.

Definition second_run : Result Response * World :=
  request_middleware Slug.slugify_ascii req_bearer respond_ok (snd first_run).

(** An execution during which the clock is set back. *)
Definition set_back_run : Result Response * World :=
  request_middleware Slug.slugify_ascii req_bearer respond_ok w_set_back.

End Sample.

(** ** Further notions: header counts and observing handlers *)

(** The number of pairs of [h] named [key]. *)
Fixpoint header_count (key : string) (h : Headers) : nat :=
  match h with
  | [] => 0
  | (k, _) :: rest =>
      if String.eqb k key then S (header_count key rest)
      else header_count key rest
  end.

(** A handler that answers 200 with whatever [observe] makes of the context
    variables it can read, and changes nothing. *)
Definition observing (observe : gmap string (option string) -> Json)
  : Request -> M Response :=
  fun _ w => (Ok (JSONResponse 200 (observe (contextvars w))), w).

(** A handler whose response already has headers, two of them trace ids. *)
Definition respond_tagged : Request -> M Response :=
  fun _ =>
    ret {| status_code := 201;
           headers := [ ("x-trace-id", "stale");
                        ("cache-control", "no-store");
                        ("x-trace-id", "staler") ];
           body := JObj [("created", JNum 1)] |}.

(** A clock read at 0.1 and then at 1e9 seconds. *)
Definition clock_long (n : nat) : float :=
  match n with
  | O => (1 / 10)%float
  | S _ => 1000000000%float
  end.

(** The headers the [except] clause's response ends up with. *)
Definition diagnostic_headers (trace_id : string) (user_id : option string)
  : Headers :=
  ("x-trace-id", trace_id)
  :: match user_id with
     | Some value => [("x-user-id", value)]
     | None => []
     end.

(** ** Signs of floats *)

(** A float, in the form its specification gives it, that carries the sign
    [s]; a NaN carries none. *)
Definition has_sign (s : bool) (x : spec_float) : Prop :=
  match x with
  | S754_zero s' | S754_infinity s' | S754_finite s' _ _ => s' = s
  | S754_nan => False
  end.

(** Of sign [s] and not a zero. *)
Definition nonzero_of_sign (s : bool) (x : spec_float) : Prop :=
  match x with
  | S754_infinity s' | S754_finite s' _ _ => s' = s
  | _ => False
  end.

(** Zero of either sign, or a number of positive sign. *)
Definition not_negative (x : spec_float) : Prop :=
  match x with
  | S754_zero _ => True
  | S754_infinity s | S754_finite s _ _ => s = false
  | S754_nan => False
  end.

(** * Properties *)

(** ** Strings and headers *)

Lemma take_length n s : String.length (PyStr.take n s) <= n.
Proof.
  revert s; induction n as [|n IH]; intros [|a s]; simpl; try lia.
  specialize (IH s); lia.
Qed.

Lemma contains_after_first_space s :
  PyStr.contains " " s = true ->
  exists before after,
    PyStr.split1 " " s = [before; after] /\
    Spec.after_first_space s = Some after.
Proof.
  induction s as [|a s IH]; simpl; [discriminate|].
  destruct (Ascii.eqb a " "); [eauto|].
  intros H; destruct (IH H) as (b & r & -> & ->); eauto.
Qed.

Lemma absent_after_first_space s :
  PyStr.contains " " s = false -> Spec.after_first_space s = None.
Proof.
  induction s as [|a s IH]; simpl; [reflexivity|].
  destruct (Ascii.eqb a " "); [discriminate|exact IH].
Qed.

Lemma get_set_eq key value h : Hdr.get key (Hdr.set key value h) = Some value.
Proof.
  induction h as [|[k v] h IH]; simpl.
  - rewrite String.eqb_refl; reflexivity.
  - destruct (String.eqb k key) eqn:E; simpl.
    + rewrite String.eqb_refl; reflexivity.
    + rewrite E; exact IH.
Qed.

Lemma get_remove_ne key key' h :
  key <> key' -> Hdr.get key' (Hdr.remove key h) = Hdr.get key' h.
Proof.
  intros Hne; induction h as [|[k v] h IH]; simpl; [reflexivity|].
  destruct (String.eqb k key) eqn:E; simpl.
  - apply String.eqb_eq in E; subst k.
    destruct (String.eqb key key') eqn:E'; [|exact IH].
    apply String.eqb_eq in E'; contradiction.
  - rewrite IH; reflexivity.
Qed.

Lemma get_set_ne key key' value h :
  key <> key' -> Hdr.get key' (Hdr.set key value h) = Hdr.get key' h.
Proof.
  intros Hne; induction h as [|[k v] h IH]; simpl.
  - destruct (String.eqb key key') eqn:E; [|reflexivity].
    apply String.eqb_eq in E; contradiction.
  - destruct (String.eqb k key) eqn:E; simpl.
    + apply String.eqb_eq in E; subst k.
      destruct (String.eqb key key') eqn:E'.
      * apply String.eqb_eq in E'; contradiction.
      * apply get_remove_ne; assumption.
    + rewrite IH; reflexivity.
Qed.

(** ** Trace identifiers *)

Section HexFacts.

Local Open Scope N_scope.

Lemma below_16 d :
  d < 16 -> In d [0; 1; 2; 3; 4; 5; 6; 7; 8; 9; 10; 11; 12; 13; 14; 15].
Proof. simpl; lia. Qed.

Lemma unhex_hex_char d : d < 16 -> UUID.unhex_char (UUID.hex_char d) = d.
Proof.
  intros H; apply below_16 in H; simpl in H.
  repeat (destruct H as [<-|H]; [reflexivity|]); contradiction.
Qed.

Lemma hex_char_lower d : d < 16 -> UUID.is_lower_hex (UUID.hex_char d) = true.
Proof.
  intros H; apply below_16 in H; simpl in H.
  repeat (destruct H as [<-|H]; [reflexivity|]); contradiction.
Qed.

Lemma nibbles_length k n : length (UUID.nibbles k n) = k.
Proof. revert n; induction k as [|k IH]; intros n; simpl; [|rewrite IH]; reflexivity. Qed.

Lemma nibbles_below_16 k n : Forall (fun d => d < 16) (UUID.nibbles k n).
Proof.
  revert n; induction k as [|k IH]; intros n; simpl; constructor.
  - apply N.mod_lt; discriminate.
  - apply IH.
Qed.

Lemma of_nibbles_nibbles k n :
  UUID.of_nibbles (UUID.nibbles k n) = n mod 16 ^ N.of_nat k.
Proof.
  revert n; induction k as [|k IH]; intros n.
  - simpl; rewrite N.mod_1_r; reflexivity.
  - cbn [UUID.nibbles UUID.of_nibbles]; rewrite IH.
    rewrite Nat2N.inj_succ, N.pow_succ_r'.
    symmetry; apply N.Div0.mod_mul_r.
Qed.

Lemma unhex_hex_chars l :
  Forall (fun d => d < 16) l -> map UUID.unhex_char (map UUID.hex_char l) = l.
Proof.
  induction 1 as [|d l Hd _ IH]; simpl; [reflexivity|].
  rewrite unhex_hex_char, IH by assumption; reflexivity.
Qed.

Lemma string_of_list_length (l : list ascii) :
  String.length (string_of_list_ascii l) = length l.
Proof. induction l as [|a l IH]; simpl; [|rewrite IH]; reflexivity. Qed.

Lemma hex_length n : String.length (UUID.hex n) = 32%nat.
Proof.
  unfold UUID.hex.
  rewrite string_of_list_length, length_map, length_rev.
  apply nibbles_length.
Qed.

Lemma hex_is_hex32 n : UUID.is_hex32 (UUID.hex n) = true.
Proof.
  unfold UUID.is_hex32; rewrite hex_length, Nat.eqb_refl, andb_true_l.
  unfold UUID.hex; rewrite list_ascii_of_string_of_list_ascii.
  apply forallb_forall; intros c Hc.
  apply in_map_iff in Hc as (d & <- & Hd).
  apply hex_char_lower.
  apply in_rev in Hd.
  exact (proj1 (List.Forall_forall _ _) (nibbles_below_16 32 n) d Hd).
Qed.

Lemma unhex_hex n : n < 2 ^ 128 -> UUID.unhex (UUID.hex n) = n.
Proof.
  intros Hn; unfold UUID.unhex, UUID.hex.
  rewrite list_ascii_of_string_of_list_ascii, unhex_hex_chars.
  - rewrite rev_involutive, of_nibbles_nibbles.
    change (16 ^ N.of_nat 32) with (2 ^ 128).
    apply N.mod_small; exact Hn.
  - apply Forall_rev, nibbles_below_16.
Qed.

Lemma hex_inj a b : a < 2 ^ 128 -> b < 2 ^ 128 -> UUID.hex a = UUID.hex b -> a = b.
Proof.
  intros Ha Hb E.
  rewrite <- (unhex_hex a Ha), <- (unhex_hex b Hb), E; reflexivity.
Qed.

Lemma int_from_bytes_bound bs :
  UUID.int_from_bytes bs < 256 ^ N.of_nat (length bs).
Proof.
  unfold UUID.int_from_bytes.
  assert (G : forall acc k, acc < 256 ^ k ->
            fold_left (fun acc b => acc * 256 + Byte.to_N b) bs acc
            < 256 ^ (k + N.of_nat (length bs))).
  { induction bs as [|b bs IH]; intros acc k Hacc.
    - simpl; rewrite N.add_0_r; exact Hacc.
    - cbn [fold_left length]; rewrite Nat2N.inj_succ.
      replace (k + N.succ (N.of_nat (length bs)))
        with (N.succ k + N.of_nat (length bs)) by lia.
      apply IH.
      rewrite N.pow_succ_r'.
      pose proof (Byte.to_N_bounded b); lia. }
  apply (G 0 0); simpl; lia.
Qed.

Lemma lor_below a b n : a < 2 ^ n -> b < 2 ^ n -> N.lor a b < 2 ^ n.
Proof.
  intros Ha Hb.
  destruct (N.eq_dec a 0) as [->|Na]; [rewrite N.lor_0_l; exact Hb|].
  destruct (N.eq_dec b 0) as [->|Nb]; [rewrite N.lor_0_r; exact Ha|].
  assert (N.lor a b <> 0) by (rewrite N.lor_eq_0_iff; tauto).
  apply N.log2_lt_pow2; [lia|].
  rewrite N.log2_lor.
  apply N.log2_lt_pow2 in Ha; [|lia].
  apply N.log2_lt_pow2 in Hb; [|lia].
  lia.
Qed.

Lemma ldiff_below a b n : a < 2 ^ n -> N.ldiff a b < 2 ^ n.
Proof. intros Ha; pose proof (N.ldiff_le_l a b); lia. Qed.

Lemma v4_bound bs : length bs = 16%nat -> UUID.v4 bs < 2 ^ 128.
Proof.
  intros Hl; unfold UUID.v4.
  pose proof (int_from_bytes_bound bs) as Hb; rewrite Hl in Hb.
  change (256 ^ N.of_nat 16) with (2 ^ 128) in Hb.
  apply lor_below; [|reflexivity].
  apply ldiff_below, lor_below; [|reflexivity].
  apply ldiff_below; exact Hb.
Qed.

End HexFacts.

Lemma drawn_length w : length (drawn w) = 16.
Proof. unfold drawn; rewrite length_map, length_seq; reflexivity. Qed.

(** Two requests carry the same trace id exactly when the UUIDs built from
    their draws are the same number. *)
Lemma trace_id_of_inj w w' :
  trace_id_of w = trace_id_of w' <-> UUID.v4 (drawn w) = UUID.v4 (drawn w').
Proof.
  unfold trace_id_of; split; [|intros ->; reflexivity].
  apply hex_inj; apply v4_bound, drawn_length.
Qed.

(** ** The advisory user id *)

Section UserId.

Variable slugify : string -> option string.

(** [get_user_id] never raises: the unpacking of [split] is guarded by the
    test for a space. *)
Lemma get_user_id_spec headers :
  get_user_id slugify headers = Ok (Spec.user_id slugify headers).
Proof.
  unfold get_user_id, Spec.user_id, Spec.remainder.
  destruct (Hdr.get "authorization" headers) as [value|]; [|reflexivity].
  destruct (PyStr.contains " " value) eqn:Hsp.
  - destruct (contains_after_first_space value Hsp) as (b & r & -> & ->).
    simpl; destruct (slugify r); reflexivity.
  - rewrite (absent_after_first_space value Hsp).
    simpl; destruct (slugify value); reflexivity.
Qed.

Lemma user_id_length headers uid :
  Spec.user_id slugify headers = Some uid -> String.length uid <= 40.
Proof.
  unfold Spec.user_id.
  destruct (Hdr.get "authorization" headers) as [value|]; [|discriminate].
  destruct (slugify _) as [slug|]; [|discriminate].
  intros H; assert (uid = PyStr.take 40 slug) as -> by congruence.
  apply take_length.
Qed.

(** C4: [get_user_id] returns what the specification derives: no user id
    without an [authorization] header; otherwise the slug of the header value
    after its first space (of the whole value when it has no space), cut to
    its first 40 characters.  A derived user id is never longer than 40
    characters. *)
Theorem get_user_id_refines_spec headers :
  get_user_id slugify headers = Ok (Spec.user_id slugify headers)
  /\ match Spec.user_id slugify headers with
     | Some uid => String.length uid <= 40
     | None => True
     end.
Proof.
  split; [apply get_user_id_spec|].
  destruct (Spec.user_id slugify headers) as [uid|] eqn:E; [|exact I].
  exact (user_id_length headers uid E).
Qed.

Lemma get_user_id_absent headers :
  Hdr.get "authorization" headers = None ->
  get_user_id slugify headers = Ok None.
Proof.
  intros Habs; rewrite get_user_id_spec; unfold Spec.user_id.
  rewrite Habs; reflexivity.
Qed.

End UserId.

(** The example of the specification, with the ASCII slug. *)
Example user_id_john_doe :
  get_user_id Slug.slugify_ascii [("authorization", "Bearer John Doe!!")]
  = Ok (Some "john-doe").
Proof. reflexivity. Qed.

Example user_id_no_scheme :
  get_user_id Slug.slugify_ascii [("authorization", "Token123")]
  = Ok (Some "token123").
Proof. reflexivity. Qed.

Example user_id_truncated :
  get_user_id Slug.slugify_ascii
    [("authorization",
      "Bearer abcdefghijklmnopqrstuvwxyz0123456789ABCDEFGHIJKLMNOPQ")]
  = Ok (Some "abcdefghijklmnopqrstuvwxyz0123456789abcd").
Proof. reflexivity. Qed.

(** ** Float subtraction *)

Section FloatSign.

Local Open Scope Z_scope.

Lemma digits2_pos_bounds m :
  2 ^ (Zpos (digits2_pos m) - 1) <= Zpos m < 2 ^ Zpos (digits2_pos m).
Proof.
  induction m as [m IH|m IH|]; cbn [digits2_pos].
  - rewrite Pos2Z.inj_succ, Z.pow_succ_r by lia.
    replace (Z.succ (Zpos (digits2_pos m)) - 1)
      with (Z.succ (Zpos (digits2_pos m) - 1)) by lia.
    rewrite Z.pow_succ_r by lia; lia.
  - rewrite Pos2Z.inj_succ, Z.pow_succ_r by lia.
    replace (Z.succ (Zpos (digits2_pos m)) - 1)
      with (Z.succ (Zpos (digits2_pos m) - 1)) by lia.
    rewrite Z.pow_succ_r by lia; lia.
  - simpl; lia.
Qed.

Lemma iter_xO m d : Zpos (Pos.iter xO m d) = Zpos m * 2 ^ Zpos d.
Proof.
  induction d as [|d IH] using Pos.peano_ind.
  - simpl; lia.
  - rewrite Pos.iter_succ, Pos2Z.inj_xO, IH, Pos2Z.inj_succ, Z.pow_succ_r by lia.
    lia.
Qed.

Lemma shl_align_value m e e' :
  e' <= e -> Zpos (fst (shl_align m e e')) = Zpos m * 2 ^ (e - e').
Proof.
  intros Hle; unfold shl_align.
  destruct (e' - e) as [|d|d] eqn:Hd; cbn [fst]; try lia.
  - replace (e - e') with 0 by lia; simpl; lia.
  - rewrite iter_xO; replace (e - e') with (Zpos d) by lia; reflexivity.
Qed.

(** The mantissa of a representable number has at most [prec] digits, and
    exactly [prec] above the smallest exponent. *)
Lemma bounded_digits m e :
  bounded prec emax m e = true ->
  emin <= e
  /\ Zpos (digits2_pos m) <= prec
  /\ (emin < e -> Zpos (digits2_pos m) = prec).
Proof.
  unfold bounded, canonical_mantissa, fexp; intros H.
  apply andb_prop in H as [H _]; apply Z.eqb_eq in H.
  unfold SpecFloat.emin in *; lia.
Qed.

(** Among representable numbers of one sign, the larger exponent, or the
    larger mantissa at equal exponents, is the larger magnitude. *)
Lemma aligned_le m1 e1 m2 e2 :
  bounded prec emax m1 e1 = true ->
  bounded prec emax m2 e2 = true ->
  e1 < e2 \/ (e1 = e2 /\ Zpos m1 <= Zpos m2) ->
  Zpos (fst (shl_align m1 e1 (Z.min e1 e2)))
  <= Zpos (fst (shl_align m2 e2 (Z.min e1 e2))).
Proof.
  intros B1 B2 H.
  rewrite !shl_align_value by lia.
  destruct H as [Hlt|[-> Hm]].
  - rewrite Z.min_l by lia.
    replace (e1 - e1) with 0 by lia; rewrite Z.pow_0_r, Z.mul_1_r.
    destruct (bounded_digits m1 e1 B1) as (Hmin & Hd1 & _).
    destruct (bounded_digits m2 e2 B2) as (_ & _ & Hd2).
    specialize (Hd2 ltac:(lia)).
    pose proof (digits2_pos_bounds m1) as [_ Hu].
    pose proof (digits2_pos_bounds m2) as [Hl _].
    rewrite Hd2 in Hl.
    assert (Zpos m1 < 2 ^ prec).
    { eapply Z.lt_le_trans; [exact Hu|].
      apply Z.pow_le_mono_r; lia. }
    assert (2 ^ 1 <= 2 ^ (e2 - e1)) by (apply Z.pow_le_mono_r; lia).
    assert (2 ^ prec = 2 * 2 ^ (prec - 1)).
    { rewrite <- Z.pow_succ_r by (unfold prec; lia); f_equal; lia. }
    change (2 ^ 1) with 2 in *.
    nia.
  - rewrite Z.min_id; replace (e2 - e2) with 0 by lia.
    rewrite Z.pow_0_r; lia.
Qed.

Lemma iter_pos_invariant {A} (f : A -> A) (P : A -> Prop) :
  (forall a, P a -> P (f a)) ->
  forall n a, P a -> P (@SpecFloat.iter_pos A f n a).
Proof.
  intros Hf; induction n as [n IH|n IH|]; intros a Ha;
    cbn [SpecFloat.iter_pos]; auto.
Qed.

Lemma shr_1_nonneg mrs : 0 <= shr_m mrs -> 0 <= shr_m (shr_1 mrs).
Proof.
  destruct mrs as [m r s]; cbn [shr_m]; intros Hm.
  destruct m as [|[p|p|]|p]; cbn; lia.
Qed.

Lemma shr_fexp_nonneg m e l :
  0 <= m -> 0 <= shr_m (fst (shr_fexp prec emax m e l)).
Proof.
  intros Hm; unfold shr_fexp, shr.
  assert (H0 : 0 <= shr_m (shr_record_of_loc m l)).
  { destruct l as [|[]]; exact Hm. }
  destruct (_ - e) as [|p|p]; cbn [fst]; try exact H0.
  apply (iter_pos_invariant shr_1 (fun r => 0 <= shr_m r)); [|exact H0].
  apply shr_1_nonneg.
Qed.

Lemma round_nearest_even_nonneg m l : 0 <= m -> 0 <= round_nearest_even m l.
Proof.
  intros Hm; destruct l as [|[]]; cbn; try lia.
  destruct (Z.even m); lia.
Qed.

Lemma binary_round_aux_sign s m e l :
  0 <= m -> has_sign s (binary_round_aux prec emax s m e l).
Proof.
  intros Hm; unfold binary_round_aux.
  pose proof (shr_fexp_nonneg m e l Hm) as H1.
  destruct (shr_fexp prec emax m e l) as [mrs' e'].
  cbn [fst] in H1.
  pose proof (shr_fexp_nonneg _ e' loc_Exact
                (round_nearest_even_nonneg _ (loc_of_shr_record mrs') H1)) as H2.
  destruct (shr_fexp prec emax _ e' loc_Exact) as [mrs'' e''].
  cbn [fst] in H2.
  destruct (shr_m mrs'') as [|p|p]; [reflexivity| |lia].
  destruct (Z.leb e'' (emax - prec)); reflexivity.
Qed.

Lemma binary_normalize_nonneg m e :
  0 <= m -> has_sign false (binary_normalize prec emax m e false).
Proof.
  intros Hm; destruct m as [|p|p]; [reflexivity| |lia].
  unfold binary_normalize, binary_round.
  destruct (shl_align p e _) as [mz ez].
  apply binary_round_aux_sign; lia.
Qed.

Lemma has_sign_not_negative x : has_sign false x -> not_negative x.
Proof. destruct x; cbn; auto. Qed.

Lemma SFleb_zero_not_negative x :
  not_negative x -> SFleb (S754_zero false) x = true.
Proof.
  destruct x as [s|s| |s m e]; cbn; try intros ->; try reflexivity;
    contradiction.
Qed.

(** The difference of two representable finite numbers, the larger first,
    is not negative.  *)
Lemma SF64sub_nonneg x y :
  valid_binary x = true -> valid_binary y = true ->
  SFleb y x = true ->
  match x, y with
  | (S754_zero _ | S754_finite _ _ _), (S754_zero _ | S754_finite _ _ _) =>
      not_negative (SF64sub x y)
  | _, _ => True
  end.
Proof.
  intros Vx Vy Hle.
  destruct x as [sx|sx| |sx mx ex], y as [sy|sy| |sy my ey]; try exact I.
  - destruct sx, sy; exact I.
  - cbn in Hle |- *; destruct sy; [reflexivity|discriminate].
  - cbn in Hle |- *; destruct sx; [discriminate|reflexivity].
  - unfold SF64sub, SFsub; cbn zeta.
    apply has_sign_not_negative, binary_normalize_nonneg.
    cbn [valid_binary] in Vx, Vy.
    unfold SFleb, SFcompare in Hle.
    destruct sy, sx; cbn [cond_Zopp].
    + (* both negative: y <= x means |x| <= |y| *)
      assert (H : ex < ey \/ (ex = ey /\ Zpos mx <= Zpos my)).
      { destruct (Z.compare_spec ey ex) as [->|Hlt|Hgt]; try discriminate.
        - right; split; [reflexivity|].
          change (Pos.compare_cont Eq my mx) with (Pos.compare my mx) in Hle.
          destruct (Pos.compare_spec my mx) as [->|Hl|Hg]; cbn in Hle;
            try discriminate; lia.
        - left; lia. }
      pose proof (aligned_le mx ex my ey Vx Vy H); lia.
    + lia.
    + discriminate.
    + assert (H : ey < ex \/ (ey = ex /\ Zpos my <= Zpos mx)).
      { destruct (Z.compare_spec ey ex) as [->|Hlt|Hgt]; try discriminate.
        - right; split; [reflexivity|].
          change (Pos.compare_cont Eq my mx) with (Pos.compare my mx) in Hle.
          destruct (Pos.compare_spec my mx) as [->|Hl|Hg]; cbn in Hle;
            try discriminate; lia.
        - left; lia. }
      pose proof (aligned_le my ey mx ex Vy Vx H) as Ha.
      rewrite (Z.min_comm ey ex) in Ha; lia.
Qed.

(** The other direction: the difference is a negative number, never a zero,
    when the first operand is the smaller one. *)

Lemma aligned_lt m1 e1 m2 e2 :
  bounded prec emax m1 e1 = true ->
  bounded prec emax m2 e2 = true ->
  e1 < e2 \/ (e1 = e2 /\ Zpos m1 < Zpos m2) ->
  Zpos (fst (shl_align m1 e1 (Z.min e1 e2)))
  < Zpos (fst (shl_align m2 e2 (Z.min e1 e2))).
Proof.
  intros B1 B2 H.
  rewrite !shl_align_value by lia.
  destruct H as [Hlt|[-> Hm]].
  - rewrite Z.min_l by lia.
    replace (e1 - e1) with 0 by lia; rewrite Z.pow_0_r, Z.mul_1_r.
    destruct (bounded_digits m1 e1 B1) as (Hmin & Hd1 & _).
    destruct (bounded_digits m2 e2 B2) as (_ & _ & Hd2).
    specialize (Hd2 ltac:(lia)).
    pose proof (digits2_pos_bounds m1) as [_ Hu].
    pose proof (digits2_pos_bounds m2) as [Hl _].
    rewrite Hd2 in Hl.
    assert (Zpos m1 < 2 ^ prec).
    { eapply Z.lt_le_trans; [exact Hu|].
      apply Z.pow_le_mono_r; lia. }
    assert (2 ^ 1 <= 2 ^ (e2 - e1)) by (apply Z.pow_le_mono_r; lia).
    assert (2 ^ prec = 2 * 2 ^ (prec - 1)).
    { rewrite <- Z.pow_succ_r by (unfold prec; lia); f_equal; lia. }
    change (2 ^ 1) with 2 in *.
    nia.
  - rewrite Z.min_id; replace (e2 - e2) with 0 by lia.
    rewrite Z.pow_0_r; lia.
Qed.

Lemma shr_1_half mrs : 0 <= shr_m mrs -> shr_m (shr_1 mrs) = shr_m mrs / 2.
Proof.
  destruct mrs as [m r s]; cbn [shr_m]; intros Hm.
  rewrite <- Z.div2_div.
  destruct m as [|[p|p|]|p]; cbn; try reflexivity; lia.
Qed.

Lemma iter_shr_1 n mrs :
  0 <= shr_m mrs ->
  shr_m (SpecFloat.iter_pos shr_1 n mrs) = shr_m mrs / 2 ^ Zpos n.
Proof.
  revert mrs; induction n as [n IH|n IH|]; intros mrs Hm;
    cbn [SpecFloat.iter_pos].
  - pose proof (shr_1_nonneg mrs Hm) as H1.
    pose proof (iter_pos_invariant shr_1 (fun r => 0 <= shr_m r)
                  shr_1_nonneg n _ H1) as H2.
    assert (Hp : 0 < 2 ^ Zpos n) by (apply Z.pow_pos_nonneg; lia).
    assert (E : 2 ^ Zpos n~1 = 2 * (2 ^ Zpos n * 2 ^ Zpos n)).
    { replace (Zpos n~1) with (1 + (Zpos n + Zpos n)) by lia.
      rewrite !Z.pow_add_r by lia; reflexivity. }
    rewrite IH, IH, shr_1_half, E by assumption.
    rewrite !Z.div_div by lia; reflexivity.
  - pose proof (iter_pos_invariant shr_1 (fun r => 0 <= shr_m r)
                  shr_1_nonneg n _ Hm) as H2.
    assert (Hp : 0 < 2 ^ Zpos n) by (apply Z.pow_pos_nonneg; lia).
    assert (E : 2 ^ Zpos n~0 = 2 ^ Zpos n * 2 ^ Zpos n).
    { replace (Zpos n~0) with (Zpos n + Zpos n) by lia.
      rewrite Z.pow_add_r by lia; reflexivity. }
    rewrite IH, IH, E by assumption.
    rewrite Z.div_div by lia; reflexivity.
  - rewrite shr_1_half by assumption; reflexivity.
Qed.

Lemma shr_fexp_positive p e l :
  emin <= e ->
  0 < shr_m (fst (shr_fexp prec emax (Zpos p) e l))
  /\ emin <= snd (shr_fexp prec emax (Zpos p) e l).
Proof.
  intros He; unfold shr_fexp, shr, fexp, Zdigits2.
  assert (H0 : shr_m (shr_record_of_loc (Zpos p) l) = Zpos p).
  { destruct l as [|[]]; reflexivity. }
  destruct (_ - e) as [|n|n] eqn:Hn; cbn [fst snd]; rewrite ?H0; try lia.
  rewrite iter_shr_1 by lia; rewrite H0; split; [|lia].
  pose proof (digits2_pos_bounds p) as [Hl _].
  apply Z.div_str_pos; split; [apply Z.pow_pos_nonneg; lia|].
  eapply Z.le_trans; [|exact Hl].
  apply Z.pow_le_mono_r; [lia|].
  unfold SpecFloat.emin, prec in *; lia.
Qed.

Lemma round_nearest_even_ge m l : m <= round_nearest_even m l.
Proof. destruct l as [|[]]; cbn; try lia. destruct (Z.even m); lia. Qed.

Lemma binary_round_aux_nonzero s p e l :
  emin <= e -> nonzero_of_sign s (binary_round_aux prec emax s (Zpos p) e l).
Proof.
  intros He; unfold binary_round_aux.
  destruct (shr_fexp_positive p e l He) as [H1 H1e].
  destruct (shr_fexp prec emax (Zpos p) e l) as [mrs' e'].
  cbn [fst snd] in H1, H1e.
  pose proof (round_nearest_even_ge (shr_m mrs') (loc_of_shr_record mrs')) as Hr.
  destruct (round_nearest_even (shr_m mrs') (loc_of_shr_record mrs'))
    as [|q|q]; try lia.
  destruct (shr_fexp_positive q e' loc_Exact H1e) as [H2 _].
  destruct (shr_fexp prec emax (Zpos q) e' loc_Exact) as [mrs'' e''].
  cbn [fst] in H2.
  destruct (shr_m mrs'') as [|r|r]; try lia.
  destruct (Z.leb e'' (emax - prec)); reflexivity.
Qed.

Lemma binary_normalize_negative p e :
  emin <= e ->
  nonzero_of_sign true (binary_normalize prec emax (Zneg p) e false).
Proof.
  intros He; unfold binary_normalize, binary_round, shl_align.
  destruct (_ - e) as [|d|d]; try (apply binary_round_aux_nonzero; exact He).
  apply binary_round_aux_nonzero; unfold fexp; lia.
Qed.

Lemma SFltb_negative_zero x :
  nonzero_of_sign true x -> SFltb x (S754_zero false) = true.
Proof.
  destruct x as [s|s| |s m e]; cbn; try intros ->; try reflexivity;
    contradiction.
Qed.

Lemma SF64sub_negative x y :
  valid_binary x = true -> valid_binary y = true ->
  SFltb x y = true ->
  match x, y with
  | (S754_zero _ | S754_finite _ _ _), (S754_zero _ | S754_finite _ _ _) =>
      nonzero_of_sign true (SF64sub x y)
  | _, _ => True
  end.
Proof.
  intros Vx Vy Hlt.
  destruct x as [sx|sx| |sx mx ex], y as [sy|sy| |sy my ey]; try exact I.
  - discriminate.
  - cbn in Hlt |- *; destruct sy; [discriminate|reflexivity].
  - cbn in Hlt |- *; destruct sx; [reflexivity|discriminate].
  - unfold SF64sub, SFsub; cbn zeta.
    cbn [valid_binary] in Vx, Vy.
    destruct (bounded_digits mx ex Vx) as (Hex & _).
    destruct (bounded_digits my ey Vy) as (Hey & _).
    unfold SFltb, SFcompare in Hlt.
    assert (Hm : cond_Zopp sx (Zpos (fst (shl_align mx ex (Z.min ex ey))))
                 - cond_Zopp sy (Zpos (fst (shl_align my ey (Z.min ex ey))))
                 < 0).
    { destruct sx, sy; cbn [cond_Zopp].
      - assert (H : ey < ex \/ (ey = ex /\ Zpos my < Zpos mx)).
        { destruct (Z.compare_spec ex ey) as [->|Hl|Hg]; try discriminate.
          - right; split; [reflexivity|].
            change (Pos.compare_cont Eq mx my) with (Pos.compare mx my) in Hlt.
            destruct (Pos.compare_spec mx my) as [->|Hl|Hg]; cbn in Hlt;
              try discriminate; lia.
          - left; lia. }
        pose proof (aligned_lt my ey mx ex Vy Vx H) as Ha.
        rewrite (Z.min_comm ey ex) in Ha; lia.
      - lia.
      - discriminate.
      - assert (H : ex < ey \/ (ex = ey /\ Zpos mx < Zpos my)).
        { destruct (Z.compare_spec ex ey) as [->|Hl|Hg]; try discriminate.
          - right; split; [reflexivity|].
            change (Pos.compare_cont Eq mx my) with (Pos.compare mx my) in Hlt.
            destruct (Pos.compare_spec mx my) as [->|Hl|Hg]; cbn in Hlt;
              try discriminate; lia.
          - left; lia. }
        pose proof (aligned_lt mx ex my ey Vx Vy H); lia. }
    destruct (_ - _) as [|q|q]; try lia.
    apply binary_normalize_negative; lia.
Qed.

End FloatSign.

Lemma is_finite_SF x :
  is_finite x = true ->
  match Prim2SF x with
  | S754_zero _ | S754_finite _ _ _ => True
  | _ => False
  end.
Proof.
  unfold is_finite, is_nan, is_infinity.
  rewrite !FloatAxioms.eqb_spec, FloatAxioms.abs_spec.
  change (Prim2SF infinity) with (S754_infinity false).
  destruct (Prim2SF x) as [[]|[]| |s m e]; cbn; intros H; try exact I;
    discriminate.
Qed.

(** [now - start], as floats are subtracted, is not negative when both are
    finite and [start <= now]. *)
Lemma float_sub_not_negative (start now : float) :
  is_finite start = true -> is_finite now = true ->
  (start <=? now)%float = true ->
  (0 <=? now - start)%float = true.
Proof.
  intros Fs Fn Hle.
  rewrite FloatAxioms.leb_spec in Hle |- *; rewrite FloatAxioms.sub_spec.
  change (Prim2SF 0%float) with (S754_zero false).
  apply SFleb_zero_not_negative.
  pose proof (SF64sub_nonneg (Prim2SF now) (Prim2SF start)
                (Prim2SF_valid now) (Prim2SF_valid start) Hle) as H.
  apply is_finite_SF in Fs; apply is_finite_SF in Fn.
  destruct (Prim2SF now), (Prim2SF start); try contradiction; exact H.
Qed.

(** [now - start], as floats are subtracted, is negative when both are
    finite and [now < start]. *)
Lemma float_sub_negative (start now : float) :
  is_finite start = true -> is_finite now = true ->
  (now <? start)%float = true ->
  (now - start <? 0)%float = true.
Proof.
  intros Fs Fn Hlt.
  rewrite FloatAxioms.ltb_spec in Hlt |- *; rewrite FloatAxioms.sub_spec.
  change (Prim2SF 0%float) with (S754_zero false).
  apply SFltb_negative_zero.
  pose proof (SF64sub_negative (Prim2SF now) (Prim2SF start)
                (Prim2SF_valid now) (Prim2SF_valid start) Hlt) as H.
  apply is_finite_SF in Fs; apply is_finite_SF in Fn.
  destruct (Prim2SF now), (Prim2SF start); try contradiction; exact H.
Qed.

(** ** The middleware *)

Section Middleware.

Variable slugify : string -> option string.
Variable request : Request.
Variable call_next : Request -> M Response.
Variable w : World.

Let uid : option string := Spec.user_id slugify (req_headers request).

(** The three ways [request_middleware] ends, by the outcome of
    [call_next] in the world prepared for it. *)
Lemma request_middleware_run :
  request_middleware slugify request call_next w =
  match call_next request (at_call_next uid request w) with
  | (Ok r, w2) =>
      (Ok (decorated uid w r), finished request (decorated uid w r) w w2)
  | (Raise exc, w2) =>
      if isinstance_Exception exc
      then (Ok (decorated uid w fallback),
            finished request (decorated uid w fallback) w
              (with_record (exception_record exc w2) w2))
      else (Raise exc, w2)
  end.
Proof.
  unfold request_middleware.
  cbv beta iota delta [bind lift time_time].
  rewrite get_user_id_spec.
  cbv beta iota delta [bind ret uuid4_hex os_urandom bind_contextvars
                       try_except_Exception fold_left fst snd].
  cbn [clock clock_reads entropy entropy_used contextvars logged].
  change (call_next request _)
    with (call_next request (at_call_next uid request w)).
  destruct (call_next request (at_call_next uid request w)) as [[r|exc] w2].
  - reflexivity.
  - destruct (isinstance_Exception exc); reflexivity.
Qed.

Lemma decorated_status r : status_code (decorated uid w r) = status_code r.
Proof. unfold decorated; destruct uid; reflexivity. Qed.

Lemma decorated_body r : body (decorated uid w r) = body r.
Proof. unfold decorated; destruct uid; reflexivity. Qed.

Lemma decorated_trace_id r :
  Hdr.get "x-trace-id" (headers (decorated uid w r)) = Some (trace_id_of w).
Proof.
  unfold decorated; destruct uid as [value|]; cbn [set_header headers].
  - rewrite get_set_ne by discriminate; apply get_set_eq.
  - apply get_set_eq.
Qed.

Lemma decorated_user_id r :
  Hdr.get "x-user-id" (headers (decorated uid w r)) =
  match uid with
  | Some value => Some value
  | None => Hdr.get "x-user-id" (headers r)
  end.
Proof.
  unfold decorated; destruct uid as [value|]; cbn [set_header headers].
  - apply get_set_eq.
  - apply get_set_ne; discriminate.
Qed.

Lemma request_middleware_completes out w2 :
  call_next request (at_call_next uid request w) = (out, w2) ->
  returns_or_raises_Exception out ->
  request_middleware slugify request call_next w =
  (Ok (decorated uid w (chosen out)),
   finished request (decorated uid w (chosen out)) w (chosen_in out w2)).
Proof.
  intros Hcall Hout; rewrite request_middleware_run, Hcall.
  destruct out as [r|exc]; [reflexivity|].
  simpl in Hout; rewrite Hout; reflexivity.
Qed.

(** An exception outside [Exception] passes through the middleware: no
    response is produced and the context variables stay bound. *)
Lemma request_middleware_escapes exc w2 :
  call_next request (at_call_next uid request w) = (Raise exc, w2) ->
  isinstance_Exception exc = false ->
  request_middleware slugify request call_next w = (Raise exc, w2).
Proof.
  intros Hcall Hexc; rewrite request_middleware_run, Hcall, Hexc; reflexivity.
Qed.

End Middleware.

(** ** The guarantees of the middleware *)

Section Guarantees.

Variable slugify : string -> option string.
Variable request : Request.
Variable call_next : Request -> M Response.
Variable w : World.

Let uid : option string := Spec.user_id slugify (req_headers request).
Let downstream : Result Response * World :=
  call_next request (at_call_next uid request w).

(** C1: whenever downstream handling returns a response or raises an
    [Exception] (a response of the routers, a recognised fault already
    translated into a response, or a fault for the [except] clause), the
    middleware returns a response and raises nothing, and the response
    carries [x-trace-id] with the 32 lower-case hexadecimal digits of the
    UUID built from the 16 bytes of entropy drawn for this request. *)
Theorem response_carries_trace_id :
  returns_or_raises_Exception (fst downstream) ->
  exists final w',
    request_middleware slugify request call_next w = (Ok final, w')
    /\ Hdr.get "x-trace-id" (headers final) = Some (trace_id_of w)
    /\ trace_id_of w = UUID.hex (UUID.v4 (drawn w))
    /\ UUID.is_hex32 (trace_id_of w) = true.
Proof.
  intros Hout; destruct downstream as [out w2] eqn:Hcall.
  eexists _, _; split.
  - exact (request_middleware_completes _ _ _ _ out w2 Hcall Hout).
  - split; [apply decorated_trace_id|].
    split; [reflexivity|apply hex_is_hex32].
Qed.

(** C2: when downstream handling raises an [Exception], the middleware
    catches it and answers with status 500 and the content
    [{"status": "error"}], and that response carries the trace id. *)
Theorem unhandled_fault_gives_500 exc w2 :
  downstream = (Raise exc, w2) ->
  isinstance_Exception exc = true ->
  exists final w',
    request_middleware slugify request call_next w = (Ok final, w')
    /\ status_code final = 500%Z
    /\ body final = JObj [("status", JStr "error")]
    /\ Hdr.get "x-trace-id" (headers final) = Some (trace_id_of w).
Proof.
  intros Hcall Hexc.
  eexists _, _; split.
  - exact (request_middleware_completes _ _ _ _ (Raise exc) w2 Hcall Hexc).
  - rewrite decorated_status, decorated_body, decorated_trace_id.
    repeat split.
Qed.

(** C5: the context variables bound at the start of the request are cleared
    when the middleware returns, both when downstream handling returned a
    response and when it raised an [Exception] that became the 500
    response. *)
Theorem context_cleared_on_return :
  returns_or_raises_Exception (fst downstream) ->
  exists final w',
    request_middleware slugify request call_next w = (Ok final, w')
    /\ contextvars w' = ∅.
Proof.
  intros Hout; destruct downstream as [out w2] eqn:Hcall.
  eexists _, _; split.
  - exact (request_middleware_completes _ _ _ _ out w2 Hcall Hout).
  - reflexivity.
Qed.

(** C6: the middleware emits exactly one record with [action="request"].
    It is the last record of the request, after whatever downstream
    handling logged and after the record of the [except] clause if that
    ran, and its [code] is the status of the response that is returned. *)
Theorem one_request_record :
  returns_or_raises_Exception (fst downstream) ->
  exists final w' before record,
    request_middleware slugify request call_next w = (Ok final, w')
    /\ logged (at_call_next uid request w) = logged w
    /\ logged w' = (logged (snd downstream) ++ before ++ [record])%list
    /\ forallb (fun e => negb (is_request_record e)) before = true
    /\ is_request_record record = true
    /\ field "code" (fields record) = Some (LInt (status_code final)).
Proof.
  intros Hout; destruct downstream as [out w2] eqn:Hcall.
  exists (decorated uid w (chosen out)),
         (finished request (decorated uid w (chosen out)) w (chosen_in out w2)),
         (match out with
          | Ok _ => []
          | Raise exc => [exception_record exc w2]
          end),
         (request_record request (decorated uid w (chosen out)) w
            (chosen_in out w2)).
  split; [exact (request_middleware_completes _ _ _ _ out w2 Hcall Hout)|].
  split; [reflexivity|].
  split.
  - destruct out as [r|exc]; cbn [finished logged chosen_in with_record snd].
    + reflexivity.
    + rewrite <- app_assoc; reflexivity.
  - destruct out; repeat split.
Qed.

(** C8 (as amended): the start time is a reading of the wall clock taken
    before downstream handling is invoked; it is kept in a local variable and
    is not bound in the request context, where the middleware binds
    [user_id], [trace_id] and [client_ip] only.  The value logged as [took]
    is the reading taken after downstream handling minus that start time, as
    floats are subtracted.  For finite readings it is not negative when the
    second is not earlier than the first, and negative when the second is
    earlier than the first. *)
Theorem took_is_difference_of_readings :
  returns_or_raises_Exception (fst downstream) ->
  exists final w',
    request_middleware slugify request call_next w = (Ok final, w')
    /\ clock_reads (at_call_next uid request w) = S (clock_reads w)
    /\ (forall name,
          name <> "user_id" -> name <> "trace_id" -> name <> "client_ip" ->
          contextvars (at_call_next uid request w) !! name
          = contextvars w !! name)
    /\ logged_took w'
       = Some (clock (snd downstream) (clock_reads (snd downstream))
               - clock w (clock_reads w))%float
    /\ (is_finite (clock w (clock_reads w)) = true ->
        is_finite (clock (snd downstream) (clock_reads (snd downstream)))
        = true ->
        (clock w (clock_reads w)
         <=? clock (snd downstream) (clock_reads (snd downstream)))%float
        = true ->
        (0 <=? clock (snd downstream) (clock_reads (snd downstream))
               - clock w (clock_reads w))%float = true)
    /\ (is_finite (clock w (clock_reads w)) = true ->
        is_finite (clock (snd downstream) (clock_reads (snd downstream)))
        = true ->
        (clock (snd downstream) (clock_reads (snd downstream))
         <? clock w (clock_reads w))%float = true ->
        (clock (snd downstream) (clock_reads (snd downstream))
         - clock w (clock_reads w) <? 0)%float = true).
Proof.
  intros Hout; destruct downstream as [out w2] eqn:Hcall.
  eexists _, _; split.
  - exact (request_middleware_completes _ _ _ _ out w2 Hcall Hout).
  - split; [reflexivity|]; split; [|split; [|split]].
    + intros name Hu Ht Hc; unfold at_call_next; cbn [contextvars].
      rewrite !lookup_insert_ne by congruence; reflexivity.
    + unfold logged_took; cbn [finished logged].
      rewrite last_snoc.
      destruct out; reflexivity.
    + cbn [snd]; apply float_sub_not_negative.
    + cbn [snd]; apply float_sub_negative.
Qed.

(** C10: when the [authorization] header is present but the remainder of its
    value has no slug, no user id is derived and the middleware sets no
    [x-user-id] header: the response carries none unless downstream handling
    put one there itself. *)
Theorem no_user_id_header_without_slug value :
  Hdr.get "authorization" (req_headers request) = Some value ->
  slugify (Spec.remainder value) = None ->
  returns_or_raises_Exception (fst downstream) ->
  Hdr.get "x-user-id" (headers (chosen (fst downstream))) = None ->
  get_user_id slugify (req_headers request) = Ok None
  /\ exists final w',
       request_middleware slugify request call_next w = (Ok final, w')
       /\ Hdr.get "x-user-id" (headers final) = None.
Proof.
  intros Hauth Hslug Hout Hnone.
  assert (Huid : uid = None).
  { unfold uid, Spec.user_id; rewrite Hauth, Hslug; reflexivity. }
  split.
  - rewrite get_user_id_spec; fold uid; rewrite Huid; reflexivity.
  - destruct downstream as [out w2] eqn:Hcall.
    eexists _, _; split.
    + exact (request_middleware_completes _ _ _ _ out w2 Hcall Hout).
    + rewrite decorated_user_id; fold uid; rewrite Huid; exact Hnone.
Qed.

End Guarantees.

(** ** The same request, twice *)

Section Twice.

Variable slugify : string -> option string.
Variable request : Request.
Variable call_next : Request -> M Response.
Variables wa wb : World.

(** C7 (as amended): two executions of the middleware on the same request,
    with a downstream handler whose outcome depends on the request only,
    return responses with the same status and the same content.  Each trace
    id is computed from the entropy drawn in that execution and from nothing
    of the request, and the two trace ids differ exactly when the UUIDs built
    from the two draws differ. *)
Theorem same_request_twice :
  (forall w w', fst (call_next request w) = fst (call_next request w')) ->
  returns_or_raises_Exception (fst (call_next request wa)) ->
  exists fa wa' fb wb',
    request_middleware slugify request call_next wa = (Ok fa, wa')
    /\ request_middleware slugify request call_next wb = (Ok fb, wb')
    /\ status_code fa = status_code fb
    /\ body fa = body fb
    /\ Hdr.get "x-trace-id" (headers fa) = Some (trace_id_of wa)
    /\ Hdr.get "x-trace-id" (headers fb) = Some (trace_id_of wb)
    /\ (trace_id_of wa <> trace_id_of wb <->
        UUID.v4 (drawn wa) <> UUID.v4 (drawn wb)).
Proof.
  intros Hdet Hout.
  set (uid := Spec.user_id slugify (req_headers request)).
  destruct (call_next request (at_call_next uid request wa)) as [oa wa2] eqn:Ha.
  destruct (call_next request (at_call_next uid request wb)) as [ob wb2] eqn:Hb.
  assert (Hoa : oa = fst (call_next request wa)).
  { rewrite (Hdet wa (at_call_next uid request wa)), Ha; reflexivity. }
  assert (Hob : ob = oa).
  { rewrite Hoa, (Hdet wa (at_call_next uid request wb)), Hb; reflexivity. }
  rewrite <- Hoa in Hout; subst ob.
  eexists _, _, _, _.
  split; [exact (request_middleware_completes _ _ _ _ oa wa2 Ha Hout)|].
  split; [exact (request_middleware_completes _ _ _ _ oa wb2 Hb Hout)|].
  rewrite !decorated_status, !decorated_body, !decorated_trace_id.
  repeat split; rewrite trace_id_of_inj; tauto.
Qed.

End Twice.

(** ** The application *)

Section Application.

Variable slugify : string -> option string.
Variable routers : Request -> M Response.
Variable request : Request.
Variable w : World.

Let uid : option string := Spec.user_id slugify (req_headers request).
Let routed : Result Response * World :=
  routers request (at_call_next uid request w).

(** The record of the [log.error] call of a handler, emitted in [w2]. *)
Lemma api_error_handler_run status message w2 :
  api_error_handler request status message w2 =
  (Ok (JSONResponse status (JObj [("detail", JStr message)])),
   with_record
     {| level := ERROR;
        event := "Search error " +:+ PyStr.of_int status +:+ ": " +:+ message;
        fields := []; context := contextvars w2 |} w2).
Proof. reflexivity. Qed.

Lemma transport_error_handler_run message w2 :
  transport_error_handler request message w2 =
  (Ok (JSONResponse 500 (JObj [("detail", JStr message)])),
   with_record
     {| level := ERROR; event := "Transport: " +:+ message;
        fields := []; context := contextvars w2 |} w2).
Proof. reflexivity. Qed.

(** C3: when the routers end in an [ApiError], the response of the
    application has the status carried by the error and the content
    [{"detail": message}]; when they end in a [TransportError] it has status
    500 and the content [{"detail": message}].  The handler, not the
    [except] clause of the middleware, decides: the only records emitted
    after the routers are the handler's error record and the request
    record. *)
Theorem recognised_fault_is_translated exc w2 status message :
  routed = (Raise exc, w2) ->
  exc = ApiError status message
  \/ (exc = TransportError message /\ status = 500%Z) ->
  exists final w' record,
    create_app slugify routers request w = (Ok final, w')
    /\ status_code final = status
    /\ body final = JObj [("detail", JStr message)]
    /\ level record = ERROR
    /\ logged w' =
       (logged w2
        ++ [record; request_record request final w (with_record record w2)])%list.
Proof.
  intros Hrouted Hexc; unfold create_app.
  assert (Hcall : exists record,
             level record = ERROR /\
             exception_handlers routers request (at_call_next uid request w)
             = (Ok (JSONResponse status (JObj [("detail", JStr message)])),
                with_record record w2)).
  { unfold exception_handlers; fold routed; rewrite Hrouted.
    destruct Hexc as [->|[-> ->]].
    - rewrite api_error_handler_run; eexists; split; [|reflexivity]; reflexivity.
    - rewrite transport_error_handler_run; eexists; split; [|reflexivity];
        reflexivity. }
  destruct Hcall as (record & Hlevel & Hcall).
  eexists _, _, record; split.
  - exact (request_middleware_completes _ _ _ _ _ _ Hcall I).
  - rewrite decorated_status, decorated_body.
    repeat split; [exact Hlevel|].
    cbn [finished logged chosen_in chosen with_record].
    rewrite <- app_assoc; reflexivity.
Qed.

(** A response of the routers passes through the handlers untouched. *)
Lemma create_app_returns r w2 :
  routed = (Ok r, w2) ->
  create_app slugify routers request w =
  (Ok (decorated uid w r), finished request (decorated uid w r) w w2).
Proof.
  intros Hrouted; unfold create_app.
  unfold routed, uid in Hrouted.
  apply (request_middleware_completes _ _ _ _ (Ok r) w2); [|exact I].
  unfold exception_handlers; rewrite Hrouted; reflexivity.
Qed.

(** A fault of the routers that no handler is registered for reaches the
    [except] clause of the middleware and becomes the 500 response. *)
Lemma create_app_unhandled cls w2 :
  routed = (Raise (OtherException cls), w2) ->
  exists final w',
    create_app slugify routers request w = (Ok final, w')
    /\ status_code final = 500%Z
    /\ body final = JObj [("status", JStr "error")]
    /\ Hdr.get "x-trace-id" (headers final) = Some (trace_id_of w).
Proof.
  intros Hrouted; unfold create_app.
  unfold routed, uid in Hrouted.
  eexists _, _; split.
  - apply (request_middleware_completes _ _ _ _ (Raise (OtherException cls)) w2);
      [|reflexivity].
    unfold exception_handlers; rewrite Hrouted; reflexivity.
  - rewrite decorated_status, decorated_body, decorated_trace_id.
    repeat split.
Qed.

End Application.

(** ** What the handler sees, and what an abort leaves behind *)

(** Downstream handling reads the values bound for its own request, whatever
    the context held before. *)
Lemma handler_sees_bound_context slugify request w :
  status_and_body
    (fst (request_middleware slugify request Sample.echo_context w)) =
  Some (200%Z,
        JObj [ ("user_id",
                Sample.show (Some (Spec.user_id slugify (req_headers request))));
               ("trace_id", JStr (trace_id_of w));
               ("client_ip", JStr (client_ip_of request)) ]).
Proof.
  rewrite request_middleware_run; unfold Sample.echo_context.
  cbn [fst status_and_body]; rewrite decorated_status, decorated_body.
  unfold at_call_next; cbn [contextvars JSONResponse status_code body].
  rewrite lookup_insert_eq.
  rewrite (lookup_insert_ne _ "client_ip" "trace_id") by discriminate.
  rewrite lookup_insert_eq.
  rewrite (lookup_insert_ne _ "client_ip" "user_id") by discriminate.
  rewrite (lookup_insert_ne _ "trace_id" "user_id") by discriminate.
  rewrite lookup_insert_eq.
  reflexivity.
Qed.

(** An exception outside [Exception] (a cancelled task) is not caught: the
    middleware raises it, emits no record and leaves the context bound. *)
Example cancelled_request_keeps_context :
  let run := request_middleware Slug.slugify_ascii Sample.req_bearer
               (Sample.fail_with (BaseOnly "asyncio.CancelledError"))
               Sample.w_steady in
  fst run = Raise (BaseOnly "asyncio.CancelledError")
  /\ contextvars (snd run) !! "user_id" = Some (Some "john-doe")
  /\ logged (snd run) = [].
Proof.
  cbv zeta.
  rewrite (request_middleware_escapes _ _ _ _
             (BaseOnly "asyncio.CancelledError")
             (at_call_next
                (Spec.user_id Slug.slugify_ascii
                   (req_headers Sample.req_bearer))
                Sample.req_bearer Sample.w_steady))
    by reflexivity.
  repeat split.
Qed.

(** ** The ASCII slug *)

Lemma scan_nothing_kept started pending s :
  forallb (fun c => negb (Slug.is_alnum (Slug.lower c)))
          (list_ascii_of_string s) = true ->
  Slug.scan started pending s = EmptyString.
Proof.
  revert pending; induction s as [|c s IH]; intros pending; [reflexivity|].
  cbn [list_ascii_of_string forallb Slug.scan].
  intros H; apply andb_prop in H as [Hc Hs].
  apply negb_true_iff in Hc; rewrite Hc; apply IH; exact Hs.
Qed.

(** A text without any letter or digit has no slug. *)
Lemma slugify_ascii_nothing_kept s :
  forallb (fun c => negb (Slug.is_alnum (Slug.lower c)))
          (list_ascii_of_string s) = true ->
  Slug.slugify_ascii s = None.
Proof.
  intros H; unfold Slug.slugify_ascii.
  rewrite scan_nothing_kept by exact H; reflexivity.
Qed.

(** ** Concrete runs *)

Example run_bearer :
  fst (request_middleware Slug.slugify_ascii Sample.req_bearer
         Sample.respond_ok Sample.w_steady) =
  Ok {| status_code := 200;
        headers := [ ("x-trace-id", "000102030405460788090a0b0c0d0e0f");
                     ("x-user-id", "john-doe") ];
        body := JObj [("results", JArr [])] |}.
Proof. vm_compute; reflexivity. Qed.

Example run_unhandled :
  fst (request_middleware Slug.slugify_ascii Sample.req_anonymous
         (Sample.fail_with (OtherException "KeyError")) Sample.w_steady) =
  Ok {| status_code := 500;
        headers := [ ("x-trace-id", "000102030405460788090a0b0c0d0e0f") ];
        body := JObj [("status", JStr "error")] |}.
Proof. vm_compute; reflexivity. Qed.

Example run_not_found :
  status_and_body
    (fst (create_app Slug.slugify_ascii
            (Sample.fail_with (ApiError 404 "not found"))
            Sample.req_anonymous Sample.w_steady)) =
  Some (404%Z, JObj [("detail", JStr "not found")]).
Proof. vm_compute; reflexivity. Qed.

Example run_connection_refused :
  status_and_body
    (fst (create_app Slug.slugify_ascii
            (Sample.fail_with (TransportError "connection refused"))
            Sample.req_anonymous Sample.w_steady)) =
  Some (500%Z, JObj [("detail", JStr "connection refused")]).
Proof. vm_compute; reflexivity. Qed.

Example run_not_found_log :
  map event
    (logged (snd (create_app Slug.slugify_ascii
                    (Sample.fail_with (ApiError 404 "not found"))
                    Sample.req_anonymous Sample.w_steady))) =
  ["Search error 404: not found"; "/search/default"].
Proof. vm_compute; reflexivity. Qed.

(** ** Where the specification says more than the code does *)

(** C7, as stated, fails: nothing makes two trace ids differ when the entropy
    source delivers the same bytes twice.  Two executions in a row on the
    same request answer with the same trace id. *)
Lemma repeated_entropy_repeats_trace_id :
  trace_header (fst Sample.first_run)
  = Some "00000000000040008000000000000000"
  /\ trace_header (fst Sample.second_run)
     = Some "00000000000040008000000000000000"
  /\ status_and_body (fst Sample.first_run)
     = status_and_body (fst Sample.second_run).
Proof. vm_compute; repeat split. Qed.

(** Bytes that differ only in the bits [uuid4] overwrites give one UUID. *)
Example version_bits_are_overwritten :
  UUID.v4 (repeat Byte.x00 6 ++ [Byte.xf0] ++ repeat Byte.x00 9)%list
  = UUID.v4 (repeat Byte.x00 16).
Proof. vm_compute; reflexivity. Qed.

(** C8, as stated, fails: [time.time()] is the wall clock, and when it is set
    back during the request the logged elapsed time is negative.  The start
    time is a local variable and is not bound in the request context. *)
Lemma took_negative_when_clock_set_back :
  logged_took (snd Sample.set_back_run) = Some (-5)%float
  /\ (-5 <? 0)%float = true
  /\ contextvars
       (at_call_next (Some "john-doe") Sample.req_bearer Sample.w_set_back)
     !! "start_time" = None.
Proof. vm_compute; repeat split. Qed.

(** The logged value is the rounded difference of the two floats: between
    the readings 0.1 and 1e9 it is the float 999999999.9. *)
Example took_is_rounded :
  logged_took
    (snd (request_middleware Slug.slugify_ascii Sample.req_bearer
            Sample.respond_ok (Sample.world clock_long Sample.entropy_counting)))
  = Some (8388607999161139 / 8388608)%float.
Proof. vm_compute; reflexivity. Qed.

(** ** The guarantees at concrete requests *)

Lemma response_carries_trace_id_witness :
  exists final w',
    request_middleware Slug.slugify_ascii Sample.req_bearer
      Sample.respond_ok Sample.w_steady = (Ok final, w')
    /\ Hdr.get "x-trace-id" (headers final) = Some (trace_id_of Sample.w_steady)
    /\ trace_id_of Sample.w_steady = UUID.hex (UUID.v4 (drawn Sample.w_steady))
    /\ UUID.is_hex32 (trace_id_of Sample.w_steady) = true.
Proof.
  apply (response_carries_trace_id Slug.slugify_ascii Sample.req_bearer
           Sample.respond_ok Sample.w_steady).
  simpl; exact I.
Defined.

Lemma unhandled_fault_gives_500_witness :
  exists final w',
    request_middleware Slug.slugify_ascii Sample.req_anonymous
      (Sample.fail_with (OtherException "KeyError")) Sample.w_steady
    = (Ok final, w')
    /\ status_code final = 500%Z
    /\ body final = JObj [("status", JStr "error")]
    /\ Hdr.get "x-trace-id" (headers final) = Some (trace_id_of Sample.w_steady).
Proof.
  apply (unhandled_fault_gives_500 Slug.slugify_ascii Sample.req_anonymous
           (Sample.fail_with (OtherException "KeyError")) Sample.w_steady
           (OtherException "KeyError")
           (at_call_next None Sample.req_anonymous Sample.w_steady)).
  - reflexivity.
  - reflexivity.
Defined.

Lemma recognised_fault_is_translated_witness :
  exists final w' record,
    create_app Slug.slugify_ascii
      (Sample.fail_with (ApiError 404 "not found"))
      Sample.req_anonymous Sample.w_steady = (Ok final, w')
    /\ status_code final = 404%Z
    /\ body final = JObj [("detail", JStr "not found")]
    /\ level record = ERROR
    /\ logged w' =
       (logged (at_call_next None Sample.req_anonymous Sample.w_steady)
        ++ [record;
            request_record Sample.req_anonymous final Sample.w_steady
              (with_record record
                 (at_call_next None Sample.req_anonymous Sample.w_steady))])%list.
Proof.
  apply (recognised_fault_is_translated Slug.slugify_ascii
           (Sample.fail_with (ApiError 404 "not found"))
           Sample.req_anonymous Sample.w_steady
           (ApiError 404 "not found")
           (at_call_next None Sample.req_anonymous Sample.w_steady)
           404%Z "not found").
  - reflexivity.
  - left; reflexivity.
Defined.

Lemma context_cleared_on_return_witness :
  exists final w',
    request_middleware Slug.slugify_ascii Sample.req_bearer
      (Sample.fail_with (OtherException "KeyError")) Sample.w_steady
    = (Ok final, w')
    /\ contextvars w' = ∅.
Proof.
  apply (context_cleared_on_return Slug.slugify_ascii Sample.req_bearer
           (Sample.fail_with (OtherException "KeyError")) Sample.w_steady).
  reflexivity.
Defined.

Lemma one_request_record_witness :
  exists final w' before record,
    request_middleware Slug.slugify_ascii Sample.req_anonymous
      (Sample.fail_with (OtherException "KeyError")) Sample.w_steady
    = (Ok final, w')
    /\ logged (at_call_next None Sample.req_anonymous Sample.w_steady)
       = logged Sample.w_steady
    /\ logged w' =
       (logged (at_call_next None Sample.req_anonymous Sample.w_steady)
        ++ before ++ [record])%list
    /\ forallb (fun e => negb (is_request_record e)) before = true
    /\ is_request_record record = true
    /\ field "code" (fields record) = Some (LInt (status_code final)).
Proof.
  apply (one_request_record Slug.slugify_ascii Sample.req_anonymous
           (Sample.fail_with (OtherException "KeyError")) Sample.w_steady).
  reflexivity.
Defined.

Lemma same_request_twice_witness :
  exists fa wa' fb wb',
    request_middleware Slug.slugify_ascii Sample.req_bearer
      Sample.respond_ok Sample.w_steady = (Ok fa, wa')
    /\ request_middleware Slug.slugify_ascii Sample.req_bearer
         Sample.respond_ok Sample.w_stuck = (Ok fb, wb')
    /\ status_code fa = status_code fb
    /\ body fa = body fb
    /\ Hdr.get "x-trace-id" (headers fa) = Some (trace_id_of Sample.w_steady)
    /\ Hdr.get "x-trace-id" (headers fb) = Some (trace_id_of Sample.w_stuck)
    /\ (trace_id_of Sample.w_steady <> trace_id_of Sample.w_stuck <->
        UUID.v4 (drawn Sample.w_steady) <> UUID.v4 (drawn Sample.w_stuck)).
Proof.
  apply (same_request_twice Slug.slugify_ascii Sample.req_bearer
           Sample.respond_ok Sample.w_steady Sample.w_stuck).
  - intros w w'; reflexivity.
  - simpl; exact I.
Defined.

Lemma took_is_difference_of_readings_witness :
  exists final w',
    request_middleware Slug.slugify_ascii Sample.req_bearer
      Sample.respond_ok Sample.w_steady = (Ok final, w')
    /\ clock_reads
         (at_call_next (Some "john-doe") Sample.req_bearer Sample.w_steady)
       = 1
    /\ (forall name,
          name <> "user_id" -> name <> "trace_id" -> name <> "client_ip" ->
          contextvars
            (at_call_next (Some "john-doe") Sample.req_bearer Sample.w_steady)
          !! name
          = contextvars Sample.w_steady !! name)
    /\ logged_took w' = Some (1 - 0)%float
    /\ (is_finite 0 = true -> is_finite 1 = true ->
        (0 <=? 1)%float = true -> (0 <=? 1 - 0)%float = true)
    /\ (is_finite 0 = true -> is_finite 1 = true ->
        (1 <? 0)%float = true -> (1 - 0 <? 0)%float = true).
Proof.
  apply (took_is_difference_of_readings Slug.slugify_ascii Sample.req_bearer
           Sample.respond_ok Sample.w_steady).
  simpl; exact I.
Defined.

Lemma no_user_id_header_without_slug_witness :
  get_user_id Slug.slugify_ascii (req_headers Sample.req_symbols) = Ok None
  /\ exists final w',
       request_middleware Slug.slugify_ascii Sample.req_symbols
         Sample.respond_ok Sample.w_steady = (Ok final, w')
       /\ Hdr.get "x-user-id" (headers final) = None.
Proof.
  apply (no_user_id_header_without_slug Slug.slugify_ascii Sample.req_symbols
           Sample.respond_ok Sample.w_steady "Bearer !!!").
  - reflexivity.
  - reflexivity.
  - simpl; exact I.
  - reflexivity.
Defined.

(** * Further properties of the code *)

(** ** [get_user_id] *)

Lemma take_length_min n s :
  String.length (PyStr.take n s) = Nat.min n (String.length s).
Proof.
  revert s; induction n as [|n IH]; intros [|a s]; simpl; try reflexivity.
  rewrite IH; reflexivity.
Qed.

Lemma take_prefix n s : String.prefix (PyStr.take n s) s = true.
Proof.
  revert s; induction n as [|n IH]; intros [|a s]; simpl; try reflexivity.
  destruct (ascii_dec a a) as [_|Hne]; [apply IH|contradiction].
Qed.

Lemma take_whole n s : String.length s <= n -> PyStr.take n s = s.
Proof.
  revert s; induction n as [|n IH]; intros [|a s]; simpl; intros Hl;
    try reflexivity; try lia.
  f_equal; apply IH; lia.
Qed.

Lemma after_first_space_app scheme rest :
  PyStr.contains " " scheme = false ->
  Spec.after_first_space (scheme +:+ String " " rest) = Some rest.
Proof.
  induction scheme as [|a scheme IH]; simpl; [reflexivity|].
  destruct (Ascii.eqb a " "); [discriminate|exact IH].
Qed.

Section UserIdMore.

Variable slugify : string -> option string.

(** X1: the scheme in front of the first space never reaches the user id:
    for a header value [scheme ++ " " ++ rest] whose scheme has no space,
    the user id is the slug of [rest] alone, cut to 40 characters; later
    spaces stay in the text that is slugified. *)
Theorem scheme_is_stripped headers scheme rest :
  Hdr.get "authorization" headers = Some (scheme +:+ String " " rest) ->
  PyStr.contains " " scheme = false ->
  get_user_id slugify headers = Ok (option_map (PyStr.take 40) (slugify rest)).
Proof.
  intros Hget Hsp; rewrite get_user_id_spec; unfold Spec.user_id, Spec.remainder.
  rewrite Hget, (after_first_space_app scheme rest Hsp).
  destruct (slugify rest); reflexivity.
Qed.

(** X2: a header value without any space is slugified as a whole: nothing is
    taken for a scheme and nothing is dropped. *)
Theorem value_without_space_is_kept headers value :
  Hdr.get "authorization" headers = Some value ->
  PyStr.contains " " value = false ->
  get_user_id slugify headers = Ok (option_map (PyStr.take 40) (slugify value)).
Proof.
  intros Hget Hsp; rewrite get_user_id_spec; unfold Spec.user_id, Spec.remainder.
  rewrite Hget, (absent_after_first_space value Hsp).
  destruct (slugify value); reflexivity.
Qed.

(** X3: the user id is a prefix of the slug, of length the smaller of 40 and
    the length of the slug: a slug of at most 40 characters is returned
    unchanged, a longer one loses exactly what is beyond the 40th. *)
Theorem user_id_is_prefix_of_slug headers uid :
  get_user_id slugify headers = Ok (Some uid) ->
  exists value slug,
    Hdr.get "authorization" headers = Some value
    /\ slugify (Spec.remainder value) = Some slug
    /\ String.prefix uid slug = true
    /\ String.length uid = Nat.min 40 (String.length slug)
    /\ (if Nat.leb (String.length slug) 40 then uid = slug
        else String.length uid = 40).
Proof.
  rewrite get_user_id_spec; unfold Spec.user_id.
  destruct (Hdr.get "authorization" headers) as [value|]; [|discriminate].
  destruct (slugify (Spec.remainder value)) as [slug|] eqn:Hslug; [|discriminate].
  intros H; assert (uid = PyStr.take 40 slug) as -> by congruence.
  exists value, slug.
  split; [reflexivity|]; split; [exact Hslug|].
  split; [apply take_prefix|]; split; [apply take_length_min|].
  destruct (Nat.leb (String.length slug) 40) eqn:Hle.
  - apply Nat.leb_le in Hle; apply take_whole; exact Hle.
  - apply Nat.leb_gt in Hle; rewrite take_length_min; lia.
Qed.

End UserIdMore.

(** ** Headers of the response *)

Lemma count_remove_eq key h : header_count key (Hdr.remove key h) = 0.
Proof.
  induction h as [|[k v] h IH]; simpl; [reflexivity|].
  destruct (String.eqb k key) eqn:E; simpl; [exact IH|].
  rewrite E; exact IH.
Qed.

Lemma count_remove_ne key key' h :
  key <> key' ->
  header_count key' (Hdr.remove key h) = header_count key' h.
Proof.
  intros Hne; induction h as [|[k v] h IH]; simpl; [reflexivity|].
  destruct (String.eqb k key) eqn:E; simpl.
  - apply String.eqb_eq in E; subst k.
    destruct (String.eqb key key') eqn:E'; [|exact IH].
    apply String.eqb_eq in E'; contradiction.
  - rewrite IH; reflexivity.
Qed.

Lemma count_set_eq key value h : header_count key (Hdr.set key value h) = 1.
Proof.
  induction h as [|[k v] h IH]; simpl.
  - rewrite String.eqb_refl; reflexivity.
  - destruct (String.eqb k key) eqn:E; simpl.
    + rewrite String.eqb_refl, count_remove_eq; reflexivity.
    + rewrite E; exact IH.
Qed.

Lemma count_set_ne key key' value h :
  key <> key' ->
  header_count key' (Hdr.set key value h) = header_count key' h.
Proof.
  intros Hne; induction h as [|[k v] h IH]; simpl.
  - destruct (String.eqb key key') eqn:E; [|reflexivity].
    apply String.eqb_eq in E; contradiction.
  - destruct (String.eqb k key) eqn:E; simpl.
    + apply String.eqb_eq in E; subst k.
      destruct (String.eqb key key') eqn:E'.
      * apply String.eqb_eq in E'; contradiction.
      * apply count_remove_ne; assumption.
    + rewrite IH; reflexivity.
Qed.

(** ** More about the middleware *)

Section MiddlewareMore.

Variable slugify : string -> option string.
Variable request : Request.
Variable call_next : Request -> M Response.
Variable w : World.

Let uid : option string := Spec.user_id slugify (req_headers request).
Let downstream : Result Response * World :=
  call_next request (at_call_next uid request w).

(** X4: when a user id is derived, the response carries it as [x-user-id],
    over whatever downstream handling had put under that name, and the value
    has at most 40 characters. *)
Theorem response_carries_user_id value :
  get_user_id slugify (req_headers request) = Ok (Some value) ->
  returns_or_raises_Exception (fst downstream) ->
  exists final w',
    request_middleware slugify request call_next w = (Ok final, w')
    /\ Hdr.get "x-user-id" (headers final) = Some value
    /\ header_count "x-user-id" (headers final) = 1
    /\ String.length value <= 40.
Proof.
  intros Hid Hout.
  assert (Huid : uid = Some value).
  { rewrite get_user_id_spec in Hid; unfold uid; congruence. }
  destruct downstream as [out w2] eqn:Hcall.
  eexists _, _; split.
  - exact (request_middleware_completes _ _ _ _ out w2 Hcall Hout).
  - split; [|split].
    + rewrite decorated_user_id; fold uid; rewrite Huid; reflexivity.
    + unfold decorated; fold uid; rewrite Huid; cbn [set_header headers].
      apply count_set_eq.
    + apply (user_id_length slugify (req_headers request)); exact Huid.
Qed.

(** X5: the response carries exactly one [x-trace-id] pair, the
    middleware's: a trace id header that downstream handling set, even
    several times, is replaced. *)
Theorem one_trace_id_header :
  returns_or_raises_Exception (fst downstream) ->
  exists final w',
    request_middleware slugify request call_next w = (Ok final, w')
    /\ header_count "x-trace-id" (headers final) = 1
    /\ Hdr.get "x-trace-id" (headers final) = Some (trace_id_of w).
Proof.
  intros Hout; destruct downstream as [out w2] eqn:Hcall.
  eexists _, _; split.
  - exact (request_middleware_completes _ _ _ _ out w2 Hcall Hout).
  - split; [|apply decorated_trace_id].
    unfold decorated; destruct (Spec.user_id _ _); cbn [set_header headers].
    + rewrite count_set_ne by discriminate; apply count_set_eq.
    + apply count_set_eq.
Qed.

(** X6: a response that downstream handling returns keeps its status, its
    content and every header other than [x-trace-id] and [x-user-id]. *)
Theorem downstream_response_passes_through r w2 key :
  downstream = (Ok r, w2) ->
  key <> "x-trace-id" ->
  key <> "x-user-id" ->
  exists final w',
    request_middleware slugify request call_next w = (Ok final, w')
    /\ status_code final = status_code r
    /\ body final = body r
    /\ Hdr.get key (headers final) = Hdr.get key (headers r)
    /\ header_count key (headers final) = header_count key (headers r).
Proof.
  intros Hcall Ht Hu.
  eexists _, _; split.
  - exact (request_middleware_completes _ _ _ _ (Ok r) w2 Hcall I).
  - rewrite decorated_status, decorated_body; cbn [chosen].
    split; [reflexivity|]; split; [reflexivity|].
    unfold decorated; destruct (Spec.user_id _ _); cbn [set_header headers].
    + rewrite !get_set_ne, !count_set_ne by congruence; split; reflexivity.
    + rewrite get_set_ne, count_set_ne by congruence; split; reflexivity.
Qed.

(** X7: the response of the [except] clause holds nothing of the exception:
    whatever [Exception] was raised, it is status 500, the content
    [{"status": "error"}] and the diagnostic headers, nothing else. *)
Theorem fallback_hides_the_exception exc w2 :
  downstream = (Raise exc, w2) ->
  isinstance_Exception exc = true ->
  fst (request_middleware slugify request call_next w) =
  Ok {| status_code := 500;
        headers := diagnostic_headers (trace_id_of w) uid;
        body := JObj [("status", JStr "error")] |}.
Proof.
  intros Hcall Hexc.
  rewrite (request_middleware_completes _ _ _ _ (Raise exc) w2 Hcall Hexc).
  cbn [fst chosen]; unfold decorated, diagnostic_headers; fold uid.
  destruct uid; reflexivity.
Qed.

(** X8: an exception that is not an [Exception] is not caught: the
    middleware raises it, returns no response, emits no record of its own,
    and leaves the context variables as downstream handling left them,
    uncleared. *)
Theorem base_exception_passes_through exc w2 :
  downstream = (Raise exc, w2) ->
  isinstance_Exception exc = false ->
  fst (request_middleware slugify request call_next w) = Raise exc
  /\ logged (snd (request_middleware slugify request call_next w)) = logged w2
  /\ contextvars (snd (request_middleware slugify request call_next w))
     = contextvars w2.
Proof.
  intros Hcall Hexc.
  rewrite request_middleware_run; fold uid; fold downstream.
  rewrite Hcall, Hexc; repeat split.
Qed.

(** X9: the request record is emitted while the context is still bound: when
    downstream handling leaves the context as it found it, the context of the
    request record holds, under [trace_id], the value of the [x-trace-id]
    header of the response. *)
Theorem request_record_carries_trace_id :
  returns_or_raises_Exception (fst downstream) ->
  contextvars (snd downstream) = contextvars (at_call_next uid request w) ->
  exists final w' record,
    request_middleware slugify request call_next w = (Ok final, w')
    /\ last (logged w') = Some record
    /\ is_request_record record = true
    /\ context record !! "trace_id"
       = Some (Hdr.get "x-trace-id" (headers final)).
Proof.
  intros Hout Hctx; destruct downstream as [out w2] eqn:Hcall.
  eexists _, _, _; split.
  - exact (request_middleware_completes _ _ _ _ out w2 Hcall Hout).
  - cbn [finished logged]; rewrite last_snoc.
    split; [reflexivity|]; split; [reflexivity|].
    rewrite decorated_trace_id.
    cbn [request_record context snd] in *.
    replace (contextvars (chosen_in out w2)) with (contextvars w2)
      by (destruct out; reflexivity).
    rewrite Hctx; unfold at_call_next; cbn [contextvars].
    rewrite (lookup_insert_ne _ "client_ip" "trace_id") by discriminate.
    apply lookup_insert_eq.
Qed.

End MiddlewareMore.

(** ** What downstream handling can read *)

(** X10: downstream handling runs with [user_id], [trace_id] and [client_ip]
    bound to the values of its own request, over whatever these names were
    bound to before; [client_ip] is the peer's host, or [127.0.0.1] when the
    request has no client; names bound earlier under other keys are still
    there. *)
Theorem handler_reads_own_bindings slugify request w observe :
  status_and_body
    (fst (request_middleware slugify request (observing observe) w)) =
  Some (200%Z,
        observe
          (<["client_ip" := Some match client request with
                                 | Some peer => host peer
                                 | None => "127.0.0.1"
                                 end]>
             (<["trace_id" := Some (trace_id_of w)]>
                (<["user_id" := Spec.user_id slugify (req_headers request)]>
                   (contextvars w))))).
Proof.
  rewrite request_middleware_run; unfold observing.
  cbn [fst status_and_body]; rewrite decorated_status, decorated_body.
  reflexivity.
Qed.

(** X11: after a request that ended with a response, the next request on the
    same worker starts from an empty context: its handler reads the three
    names bound for its own request and nothing else. *)
Theorem next_request_sees_no_residue slugify request1 call_next1 w
    request2 observe :
  returns_or_raises_Exception
    (fst (call_next1 request1
            (at_call_next (Spec.user_id slugify (req_headers request1))
               request1 w))) ->
  status_and_body
    (fst (request_middleware slugify request2 (observing observe)
            (snd (request_middleware slugify request1 call_next1 w)))) =
  Some (200%Z,
        observe
          (<["client_ip" := Some (client_ip_of request2)]>
             (<["trace_id" :=
                  Some (trace_id_of
                          (snd (request_middleware slugify request1
                                  call_next1 w)))]>
                (<["user_id" := Spec.user_id slugify (req_headers request2)]>
                   ∅)))).
Proof.
  intros Hout.
  destruct (call_next1 request1 _) as [out w2] eqn:Hcall.
  rewrite (request_middleware_completes _ _ _ _ out w2 Hcall Hout).
  cbn [snd].
  rewrite request_middleware_run; unfold observing.
  cbn [fst status_and_body]; rewrite decorated_status, decorated_body.
  reflexivity.
Qed.

(** ** More about the application *)

Section ApplicationMore.

Variable slugify : string -> option string.
Variable routers : Request -> M Response.
Variable request : Request.
Variable w : World.

Let uid : option string := Spec.user_id slugify (req_headers request).

Lemma exception_handlers_translate exc w2 status message :
  routers request (at_call_next uid request w) = (Raise exc, w2) ->
  exc = ApiError status message
  \/ (exc = TransportError message /\ status = 500%Z) ->
  exists record,
    level record = ERROR
    /\ context record = contextvars w2
    /\ exception_handlers routers request (at_call_next uid request w)
       = (Ok (JSONResponse status (JObj [("detail", JStr message)])),
          with_record record w2).
Proof.
  intros Hrouted Hexc; unfold exception_handlers; rewrite Hrouted.
  destruct Hexc as [->|[-> ->]].
  - rewrite api_error_handler_run.
    eexists; split; [|split; [|reflexivity]]; reflexivity.
  - rewrite transport_error_handler_run.
    eexists; split; [|split; [|reflexivity]]; reflexivity.
Qed.

(** X12: a response translated from an [ApiError] or a [TransportError]
    goes through the rest of the middleware like any other: it carries the
    trace id header, the request record logs the status of the fault, and
    the context is cleared. *)
Theorem translated_response_is_finalised exc w2 status message :
  routers request (at_call_next uid request w) = (Raise exc, w2) ->
  exc = ApiError status message
  \/ (exc = TransportError message /\ status = 500%Z) ->
  exists final w' record,
    create_app slugify routers request w = (Ok final, w')
    /\ Hdr.get "x-trace-id" (headers final) = Some (trace_id_of w)
    /\ Hdr.get "x-user-id" (headers final) = uid
    /\ last (logged w') = Some record
    /\ is_request_record record = true
    /\ field "code" (fields record) = Some (LInt status)
    /\ contextvars w' = ∅.
Proof.
  intros Hrouted Hexc.
  destruct (exception_handlers_translate exc w2 status message Hrouted Hexc)
    as (err & _ & _ & Hcall).
  unfold create_app.
  eexists _, _, _; split.
  - exact (request_middleware_completes _ _ _ _ _ _ Hcall I).
  - rewrite decorated_trace_id, decorated_user_id.
    split; [reflexivity|]; split.
    + fold uid; destruct uid; reflexivity.
    + cbn [finished logged contextvars]; rewrite last_snoc.
      repeat split.
      cbn [request_record fields request_fields field String.eqb Ascii.eqb
           Bool.eqb].
      rewrite decorated_status; reflexivity.
Qed.

End ApplicationMore.

(** ** The record of the [except] clause *)

(** X13: when the [except] clause runs, the middleware emits two records
    after downstream handling: first the [log.exception] record, whose text
    names the class of the exception, then the request record with code
    500. *)
Theorem exception_is_logged_with_its_class slugify request call_next w exc w2 :
  call_next request
    (at_call_next (Spec.user_id slugify (req_headers request)) request w)
  = (Raise exc, w2) ->
  isinstance_Exception exc = true ->
  exists first second,
    logged (snd (request_middleware slugify request call_next w))
    = (logged w2 ++ [first; second])%list
    /\ level first = EXCEPTION
    /\ event first
       = "Exception during request: <class '" +:+ class_name exc +:+ "'>"
    /\ is_request_record first = false
    /\ is_request_record second = true
    /\ field "code" (fields second) = Some (LInt 500).
Proof.
  intros Hcall Hexc.
  rewrite (request_middleware_completes _ _ _ _ (Raise exc) w2 Hcall Hexc).
  eexists _, _; split.
  - cbn [snd finished logged chosen_in with_record].
    rewrite <- app_assoc; reflexivity.
  - repeat split.
    cbn [request_record fields request_fields field String.eqb Ascii.eqb
         Bool.eqb].
    rewrite decorated_status; reflexivity.
Qed.

(** ** The further properties at concrete requests *)

Example run_tagged :
  fst (request_middleware Slug.slugify_ascii Sample.req_bearer
         respond_tagged Sample.w_steady) =
  Ok {| status_code := 201;
        headers := [ ("x-trace-id", "000102030405460788090a0b0c0d0e0f");
                     ("cache-control", "no-store");
                     ("x-user-id", "john-doe") ];
        body := JObj [("created", JNum 1)] |}.
Proof. vm_compute; reflexivity. Qed.

Lemma scheme_is_stripped_witness :
  get_user_id Slug.slugify_ascii
    [("authorization", "Basic Jane Roe 7"); ("accept", "*/*")]
  = Ok (option_map (PyStr.take 40) (Slug.slugify_ascii "Jane Roe 7")).
Proof.
  apply (scheme_is_stripped Slug.slugify_ascii
           [("authorization", "Basic Jane Roe 7"); ("accept", "*/*")]
           "Basic" "Jane Roe 7").
  - reflexivity.
  - reflexivity.
Defined.

Lemma value_without_space_is_kept_witness :
  get_user_id Slug.slugify_ascii [("authorization", "Token123")]
  = Ok (option_map (PyStr.take 40) (Slug.slugify_ascii "Token123")).
Proof.
  apply (value_without_space_is_kept Slug.slugify_ascii
           [("authorization", "Token123")] "Token123").
  - reflexivity.
  - reflexivity.
Defined.

Lemma user_id_is_prefix_of_slug_witness :
  exists value slug,
    Hdr.get "authorization" (req_headers Sample.req_bearer) = Some value
    /\ Slug.slugify_ascii (Spec.remainder value) = Some slug
    /\ String.prefix "john-doe" slug = true
    /\ String.length "john-doe" = Nat.min 40 (String.length slug)
    /\ (if Nat.leb (String.length slug) 40 then "john-doe" = slug
        else String.length "john-doe" = 40).
Proof.
  apply (user_id_is_prefix_of_slug Slug.slugify_ascii
           (req_headers Sample.req_bearer) "john-doe").
  reflexivity.
Defined.

Lemma response_carries_user_id_witness :
  exists final w',
    request_middleware Slug.slugify_ascii Sample.req_bearer
      Sample.respond_ok Sample.w_steady = (Ok final, w')
    /\ Hdr.get "x-user-id" (headers final) = Some "john-doe"
    /\ header_count "x-user-id" (headers final) = 1
    /\ String.length "john-doe" <= 40.
Proof.
  apply (response_carries_user_id Slug.slugify_ascii Sample.req_bearer
           Sample.respond_ok Sample.w_steady "john-doe").
  - reflexivity.
  - simpl; exact I.
Defined.

Lemma one_trace_id_header_witness :
  exists final w',
    request_middleware Slug.slugify_ascii Sample.req_bearer
      respond_tagged Sample.w_steady = (Ok final, w')
    /\ header_count "x-trace-id" (headers final) = 1
    /\ Hdr.get "x-trace-id" (headers final) = Some (trace_id_of Sample.w_steady).
Proof.
  apply (one_trace_id_header Slug.slugify_ascii Sample.req_bearer
           respond_tagged Sample.w_steady).
  simpl; exact I.
Defined.

Lemma downstream_response_passes_through_witness :
  exists final w',
    request_middleware Slug.slugify_ascii Sample.req_bearer
      respond_tagged Sample.w_steady = (Ok final, w')
    /\ status_code final = 201%Z
    /\ body final = JObj [("created", JNum 1)]
    /\ Hdr.get "cache-control" (headers final) = Some "no-store"
    /\ header_count "cache-control" (headers final) = 1.
Proof.
  apply (downstream_response_passes_through Slug.slugify_ascii
           Sample.req_bearer respond_tagged Sample.w_steady
           {| status_code := 201;
              headers := [ ("x-trace-id", "stale");
                           ("cache-control", "no-store");
                           ("x-trace-id", "staler") ];
              body := JObj [("created", JNum 1)] |}
           (at_call_next (Some "john-doe") Sample.req_bearer Sample.w_steady)
           "cache-control").
  - reflexivity.
  - discriminate.
  - discriminate.
Defined.

Lemma fallback_hides_the_exception_witness :
  fst (request_middleware Slug.slugify_ascii Sample.req_bearer
         (Sample.fail_with (OtherException "KeyError")) Sample.w_steady) =
  Ok {| status_code := 500;
        headers := diagnostic_headers (trace_id_of Sample.w_steady)
                     (Some "john-doe");
        body := JObj [("status", JStr "error")] |}.
Proof.
  apply (fallback_hides_the_exception Slug.slugify_ascii Sample.req_bearer
           (Sample.fail_with (OtherException "KeyError")) Sample.w_steady
           (OtherException "KeyError")
           (at_call_next (Some "john-doe") Sample.req_bearer Sample.w_steady)).
  - reflexivity.
  - reflexivity.
Defined.

Lemma base_exception_passes_through_witness :
  fst (request_middleware Slug.slugify_ascii Sample.req_bearer
         (Sample.fail_with (BaseOnly "asyncio.CancelledError"))
         Sample.w_steady)
  = Raise (BaseOnly "asyncio.CancelledError")
  /\ logged (snd (request_middleware Slug.slugify_ascii Sample.req_bearer
                    (Sample.fail_with (BaseOnly "asyncio.CancelledError"))
                    Sample.w_steady))
     = logged (at_call_next (Some "john-doe") Sample.req_bearer Sample.w_steady)
  /\ contextvars
       (snd (request_middleware Slug.slugify_ascii Sample.req_bearer
               (Sample.fail_with (BaseOnly "asyncio.CancelledError"))
               Sample.w_steady))
     = contextvars
         (at_call_next (Some "john-doe") Sample.req_bearer Sample.w_steady).
Proof.
  apply (base_exception_passes_through Slug.slugify_ascii Sample.req_bearer
           (Sample.fail_with (BaseOnly "asyncio.CancelledError"))
           Sample.w_steady (BaseOnly "asyncio.CancelledError")
           (at_call_next (Some "john-doe") Sample.req_bearer Sample.w_steady)).
  - reflexivity.
  - reflexivity.
Defined.

Lemma request_record_carries_trace_id_witness :
  exists final w' record,
    request_middleware Slug.slugify_ascii Sample.req_bearer
      Sample.respond_ok Sample.w_steady = (Ok final, w')
    /\ last (logged w') = Some record
    /\ is_request_record record = true
    /\ context record !! "trace_id"
       = Some (Hdr.get "x-trace-id" (headers final)).
Proof.
  apply (request_record_carries_trace_id Slug.slugify_ascii Sample.req_bearer
           Sample.respond_ok Sample.w_steady).
  - simpl; exact I.
  - reflexivity.
Defined.

Lemma next_request_sees_no_residue_witness :
  status_and_body
    (fst (request_middleware Slug.slugify_ascii Sample.req_anonymous
            (observing (fun m => JNum (Z.of_nat (size m))))
            (snd (request_middleware Slug.slugify_ascii Sample.req_bearer
                    Sample.respond_ok Sample.w_steady)))) =
  Some (200%Z,
        (fun m : gmap string (option string) => JNum (Z.of_nat (size m)))
          (<["client_ip" := Some (client_ip_of Sample.req_anonymous)]>
             (<["trace_id" :=
                  Some (trace_id_of
                          (snd (request_middleware Slug.slugify_ascii
                                  Sample.req_bearer Sample.respond_ok
                                  Sample.w_steady)))]>
                (<["user_id" :=
                     Spec.user_id Slug.slugify_ascii
                       (req_headers Sample.req_anonymous)]> ∅)))).
Proof.
  apply (next_request_sees_no_residue Slug.slugify_ascii Sample.req_bearer
           Sample.respond_ok Sample.w_steady Sample.req_anonymous
           (fun m => JNum (Z.of_nat (size m)))).
  simpl; exact I.
Defined.

Lemma translated_response_is_finalised_witness :
  exists final w' record,
    create_app Slug.slugify_ascii
      (Sample.fail_with (TransportError "connection refused"))
      Sample.req_bearer Sample.w_steady = (Ok final, w')
    /\ Hdr.get "x-trace-id" (headers final) = Some (trace_id_of Sample.w_steady)
    /\ Hdr.get "x-user-id" (headers final) = Some "john-doe"
    /\ last (logged w') = Some record
    /\ is_request_record record = true
    /\ field "code" (fields record) = Some (LInt 500)
    /\ contextvars w' = ∅.
Proof.
  apply (translated_response_is_finalised Slug.slugify_ascii
           (Sample.fail_with (TransportError "connection refused"))
           Sample.req_bearer Sample.w_steady
           (TransportError "connection refused")
           (at_call_next (Some "john-doe") Sample.req_bearer Sample.w_steady)
           500%Z "connection refused").
  - reflexivity.
  - right; split; reflexivity.
Defined.

Lemma exception_is_logged_with_its_class_witness :
  exists first second,
    logged (snd (request_middleware Slug.slugify_ascii Sample.req_anonymous
                   (Sample.fail_with (OtherException "KeyError"))
                   Sample.w_steady))
    = (logged (at_call_next None Sample.req_anonymous Sample.w_steady)
       ++ [first; second])%list
    /\ level first = EXCEPTION
    /\ event first = "Exception during request: <class 'KeyError'>"
    /\ is_request_record first = false
    /\ is_request_record second = true
    /\ field "code" (fields second) = Some (LInt 500).
Proof.
  apply (exception_is_logged_with_its_class Slug.slugify_ascii
           Sample.req_anonymous (Sample.fail_with (OtherException "KeyError"))
           Sample.w_steady (OtherException "KeyError")
           (at_call_next None Sample.req_anonymous Sample.w_steady)).
  - reflexivity.
  - reflexivity.
Defined.
